(** * Papaya widget-react: permit codec, rate calculator, resolver, traits

    A shallow embedding of the pure parts of the widget:
    - [compressPermit] / [decompressPermit] (utils/helpers, permit codec),
    - [buildBySigTraits] (utils/helpers),
    - [calculateSubscriptionRate] (utils/index.ts),
    - [useSubscriptionInfo] and [useTokenDetails] (hook/useSubscriptionModal.tsx),
      with React hooks replaced by their inputs (the polled balances).

    JavaScript strings are lists of ASCII characters, bigints are [Z], a
    thrown [Error] is an [Err] of the result type below. The library code
    the widget calls (ethers 5.7.1's abi coder and BigNumber, React's state
    setter) is modelled where the results depend on it. *)

From Stdlib Require Import ZArith List Ascii String Bool Lia.
Import ListNotations.
Open Scope Z_scope.

(** ** JavaScript values *)

Definition jstr := list ascii.

Definition lit (s : string) : jstr := list_ascii_of_string s.

(** The errors thrown by the modelled code. *)
Inductive js_error :=
| InvalidPermitLength        (* "Invalid permit length" *)
| AlreadyCompressed          (* "Permit is already compressed" *)
| AlreadyDecompressed        (* "Permit is already decompressed" *)
| AbiCoderError              (* ethers' abi coder rejects its input *)
| BigIntSyntaxError          (* BigInt(string) on a malformed string *)
| WrongNonceType             (* buildBySigTraits guards *)
| WrongDeadline
| WrongRelayer
| WrongNonce
| MissingDefaultNetwork      (* useTokenDetails guards *)
| MissingDefaultToken
| UndefinedProperty          (* reading a property of undefined (TypeError) *)
| UnexpectedArgument         (* ethers' BigNumber.toString(radix): "toString does not accept any parameters" *)
| BigIntMixError             (* TypeError: "Cannot mix BigInt and other types" *)
| BigIntRangeError           (* RangeError: BigInt(x) of a number x that is not an integer *)
| ToObjectError.             (* TypeError: an Object.prototype method called on undefined *)

Inductive result (A : Type) :=
| Ok (a : A)
| Err (e : js_error).
Arguments Ok {A} a.
Arguments Err {A} e.

Definition bind {A B} (m : result A) (k : A -> result B) : result B :=
  match m with Ok a => k a | Err e => Err e end.

Definition of_option {A} (e : js_error) (o : option A) : result A :=
  match o with Some a => Ok a | None => Err e end.

Notation "'let*' x ':=' m 'in' k" := (bind m (fun x => k))
  (at level 200, x name, m at level 100, k at level 200).

(** ** Hex digits, [toString(16)] and [padStart] *)

Definition hex_char (d : Z) : ascii :=
  if d <? 10 then ascii_of_nat (48 + Z.to_nat d)
  else ascii_of_nat (87 + Z.to_nat d).

(** Digit value of a character in base [base] (2, 8, 10 or 16),
    upper and lower case letters accepted. *)
Definition digit_val (base : Z) (c : ascii) : option Z :=
  let n := Z.of_nat (nat_of_ascii c) in
  let d :=
    if (48 <=? n) && (n <=? 57) then Some (n - 48)
    else if (97 <=? n) && (n <=? 102) then Some (n - 87)
    else if (65 <=? n) && (n <=? 70) then Some (n - 55)
    else None in
  match d with
  | Some v => if v <? base then Some v else None
  | None => None
  end.

Definition digits_step (base : Z) (acc : option Z) (c : ascii) : option Z :=
  match acc, digit_val base c with
  | Some a, Some d => Some (a * base + d)
  | _, _ => None
  end.

(** Value of a (possibly empty) string of digits. *)
Definition digits_value (base : Z) (s : jstr) : option Z :=
  fold_left (digits_step base) s (Some 0).

(** [w] lowercase hex digits of [n], most significant first. *)
Fixpoint hex_fixed (w : nat) (n : Z) : jstr :=
  match w with
  | O => []
  | S w' => hex_fixed w' (n / 16) ++ [hex_char (n mod 16)]
  end.

(** Number of digits of [n.toString(16)] for [n >= 0]. *)
Definition hex_len (n : Z) : nat :=
  if n <=? 0 then 1%nat else Z.to_nat (Z.log2 n / 4 + 1).

(** [n.toString(16)] for a bigint [n]. *)
Definition toString16 (n : Z) : jstr :=
  if n <? 0 then "-"%char :: hex_fixed (hex_len (- n)) (- n)
  else hex_fixed (hex_len n) n.

(** [s.padStart(w, "0")]. *)
Definition padStart (w : nat) (s : jstr) : jstr :=
  repeat "0"%char (w - List.length s) ++ s.

Definition jstr_eqb (a b : jstr) : bool :=
  if list_eq_dec ascii_dec a b then true else false.

(** Decimal digits of [n >= 0], most significant first; the fuel
    [log2 n + 1] bounds the number of digits. *)
Fixpoint dec_digits (fuel : nat) (n : Z) (acc : jstr) : jstr :=
  match fuel with
  | O => acc
  | S f =>
      let acc' := hex_char (n mod 10) :: acc in
      if n <? 10 then acc' else dec_digits f (n / 10) acc'
  end.

(** [n.toString()]: the decimal text of an integer. *)
Definition dec_string (n : Z) : jstr :=
  if n <? 0 then "-"%char :: dec_digits (Z.to_nat (Z.log2 (- n)) + 1) (- n) []
  else dec_digits (Z.to_nat (Z.log2 n) + 1) n [].

(** [s.slice(a, b)] for [0 <= a], [0 <= b]. *)
Definition js_slice (a b : nat) (s : jstr) : jstr :=
  firstn (b - a) (skipn a s).

Definition starts_with_0x (s : jstr) : bool :=
  match s with
  | "0"%char :: "x"%char :: _ => true
  | _ => false
  end.

(** [trim0x] of decompressPermit. *)
Definition trim0x (s : jstr) : jstr :=
  if starts_with_0x s then skipn 2 s else s.

(** ** [BigInt(string)] (StringToBigInt) *)

Definition is_js_space (c : ascii) : bool :=
  let n := nat_of_ascii c in
  ((9 <=? n) && (n <=? 13))%nat || (n =? 32)%nat.

Fixpoint drop_spaces (s : jstr) : jstr :=
  match s with
  | c :: s' => if is_js_space c then drop_spaces s' else s
  | [] => []
  end.

Definition js_trim (s : jstr) : jstr := rev (drop_spaces (rev (drop_spaces s))).

Definition nonempty_digits (base : Z) (s : jstr) : option Z :=
  match s with [] => None | _ => digits_value base s end.

Definition string_to_bigint (s : jstr) : option Z :=
  match js_trim s with
  | [] => Some 0
  | "0"%char :: x :: rest =>
      if (x =? "x")%char || (x =? "X")%char then nonempty_digits 16 rest
      else if (x =? "o")%char || (x =? "O")%char then nonempty_digits 8 rest
      else if (x =? "b")%char || (x =? "B")%char then nonempty_digits 2 rest
      else nonempty_digits 10 ("0"%char :: x :: rest)
  | "+"%char :: rest => nonempty_digits 10 rest
  | "-"%char :: rest => option_map Z.opp (nonempty_digits 10 rest)
  | t => nonempty_digits 10 t
  end.

Definition BigInt (s : jstr) : result Z := of_option BigIntSyntaxError (string_to_bigint s).

(** ** ethers v5 [defaultAbiCoder] (library model)

    Only the parts the codec uses: static words for [uintN], [address],
    [bool] and [bytes32], and one dynamic [bytes]. Integers read back are
    what ethers 5.7.1's reader gives: a JS number for [uintN] with
    [N <= 48] ([toNumber()]), a [BigNumber] object above. Addresses are given by their 160-bit value;
    byte strings, as in the source, by "0x"-prefixed hex strings. *)

Inductive abi_type := TUint (bits : Z) | TAddress | TBool | TBytes32 | TBytes.

Inductive abi_arg :=
| AUint (v : Z)
| AAddress (a : Z)
| ABool (b : bool)
| ABytes32 (s : jstr)
| ABytesDyn (s : jstr).

Inductive abi_value :=
| VBigNumber (v : Z)    (* ethers' BigNumber *)
| VNumber (v : Z)       (* a JS number (an integer below 2^48) *)
| VAddress (a : Z)
| VBool (b : bool)
| VBytes (s : jstr).   (* "0x"-prefixed lowercase hex, as [hexlify] gives *)

Definition is_hex (c : ascii) : bool :=
  match digit_val 16 c with Some _ => true | None => false end.

(** [arrayify]: a "0x"-prefixed hex string of even length, as (byte count, value). *)
Definition arrayify (s : jstr) : option (nat * Z) :=
  if starts_with_0x s then
    let h := skipn 2 s in
    if forallb is_hex h && Nat.even (List.length h) then
      match digits_value 16 h with
      | Some v => Some (Nat.div2 (List.length h), v)
      | None => None
      end
    else None
  else None.

Definition zero_pad_right (n : nat) : jstr :=
  repeat "0"%char ((64 - (2 * n) mod 64) mod 64).

Definition static_word (t : abi_type) (a : abi_arg) : option jstr :=
  match t, a with
  | TUint bits, AUint v =>
      if (0 <=? v) && (v <? 2 ^ bits) then Some (hex_fixed 64 v) else None
  | TAddress, AAddress x =>
      if (0 <=? x) && (x <? 2 ^ 160) then Some (hex_fixed 64 x) else None
  | TBool, ABool b => Some (hex_fixed 64 (if b then 1 else 0))
  | TBytes32, ABytes32 s =>
      match arrayify s with
      | Some (32%nat, v) => Some (hex_fixed 64 v)
      | _ => None
      end
  | _, _ => None
  end.

(** Heads and tails; [off] is the byte offset of the next tail. *)
Fixpoint enc_parts (args : list (abi_type * abi_arg)) (off : Z) : option (jstr * jstr) :=
  match args with
  | [] => Some ([], [])
  | (TBytes, ABytesDyn s) :: rest =>
      match arrayify s with
      | Some (n, v) =>
          let tail := hex_fixed 64 (Z.of_nat n) ++ hex_fixed (2 * n) v ++ zero_pad_right n in
          match enc_parts rest (off + Z.of_nat (List.length tail) / 2) with
          | Some (h, tl) => Some (hex_fixed 64 off ++ h, tail ++ tl)
          | None => None
          end
      | None => None
      end
  | (t, a) :: rest =>
      match static_word t a, enc_parts rest off with
      | Some w, Some (h, tl) => Some (w ++ h, tl)
      | _, _ => None
      end
  end.

Definition abi_encode (tys : list abi_type) (vals : list abi_arg) : result jstr :=
  if (List.length tys =? List.length vals)%nat then
    match enc_parts (combine tys vals) (32 * Z.of_nat (List.length tys)) with
    | Some (h, tl) => Ok (lit "0x" ++ h ++ tl)
    | None => Err AbiCoderError
    end
  else Err AbiCoderError.

(** [uintN] values: [BigNumber] objects, or numbers for [N <= 48]. *)
Definition uint_value (bits v : Z) : abi_value :=
  if bits <=? 48 then VNumber v else VBigNumber v.

Definition word_at (data : jstr) (k : nat) : option Z :=
  if (k + 64 <=? List.length data)%nat then digits_value 16 (firstn 64 (skipn k data))
  else None.

Definition decode_one (data : jstr) (t : abi_type) (i : nat) : option abi_value :=
  let k := (64 * i)%nat in
  match t with
  | TUint bits => option_map (fun v => uint_value bits (v mod 2 ^ bits)) (word_at data k)
  | TAddress =>
      match word_at data k with
      | Some v => if v <? 2 ^ 160 then Some (VAddress v) else None
      | None => None
      end
  | TBool => option_map (fun v => VBool (negb (v =? 0))) (word_at data k)
  | TBytes32 => option_map (fun v => VBytes (lit "0x" ++ hex_fixed 64 v)) (word_at data k)
  | TBytes =>
      match word_at data k with
      | Some off =>
          if off <? 2 ^ 53 then
            let p := (2 * Z.to_nat off)%nat in
            match word_at data p with
            | Some n =>
                if n <? 2 ^ 53 then
                  let nb := Z.to_nat n in
                  if (p + 64 + 64 * ((2 * nb + 63) / 64) <=? List.length data)%nat then
                    option_map (fun v => VBytes (lit "0x" ++ hex_fixed (2 * nb) v))
                      (digits_value 16 (firstn (2 * nb) (skipn (p + 64) data)))
                  else None
                else None
            | None => None
            end
          else None
      | None => None
      end
  end.

Fixpoint decode_all (data : jstr) (tys : list abi_type) (i : nat) : option (list abi_value) :=
  match tys with
  | [] => Some []
  | t :: rest =>
      match decode_one data t i, decode_all data rest (S i) with
      | Some v, Some vs => Some (v :: vs)
      | _, _ => None
      end
  end.

Definition abi_decode (tys : list abi_type) (s : jstr) : result (list abi_value) :=
  match s with
  | "0"%char :: "x"%char :: data =>
      if forallb is_hex data && Nat.even (List.length data) then
        of_option AbiCoderError (decode_all data tys 0)
      else Err AbiCoderError
  | _ => Err AbiCoderError
  end.

(** ** Permit codec (compressPermit / decompressPermit) *)

(** [ethers.constants.MaxUint256]. *)
Definition MaxUint256 : Z := 2 ^ 256 - 1.

(** [BigInt("0xffffffffffff")], the Permit2 sentinel. *)
Definition permit2_max : Z :=
  match string_to_bigint (lit "0xffffffffffff") with Some v => v | None => 0 end.

(** [BigInt("0x7fff...ff")], the mask of the low 255 bits of [vs]. *)
Definition vs_mask : Z :=
  match string_to_bigint
          (lit "0x7fffffffffffffffffffffffffffffffffffffffffffffffffffffffffffffff")
  with Some v => v | None => 0 end.

(** IERC20Permit.permit(address owner, address spender, uint value,
    uint deadline, uint8 v, bytes32 r, bytes32 s) *)
Definition eip2612_types : list abi_type :=
  [TAddress; TAddress; TUint 256; TUint 256; TUint 8; TBytes32; TBytes32].

(** IDaiLikePermit.permit(address holder, address spender, uint256 nonce,
    uint256 expiry, bool allowed, uint8 v, bytes32 r, bytes32 s) *)
Definition dai_types : list abi_type :=
  [TAddress; TAddress; TUint 256; TUint 256; TBool; TUint 8; TBytes32; TBytes32].

(** IPermit2.permit(address owner, address token, uint160 amount,
    uint48 expiration, uint48 nonce, address spender, uint256 sigDeadline,
    bytes signature) *)
Definition permit2_types : list abi_type :=
  [TAddress; TAddress; TUint 160; TUint 48; TUint 48; TAddress; TUint 256; TBytes].

(** [x.toString(16).padStart(w, "0")] *)
Definition hexpad (w : nat) (x : Z) : jstr := padStart w (toString16 x).

(** ethers 5.7.1 [BigNumber.prototype.toString(radix)]: without a radix,
    or with 10 (after a warning), the decimal text; any other radix throws
    UNEXPECTED_ARGUMENT. *)
Definition BigNumber_toString (radix : option Z) (n : Z) : result jstr :=
  match radix with
  | None => Ok (dec_string n)
  | Some r => if r =? 10 then Ok (dec_string n) else Err UnexpectedArgument
  end.

(** [b + k] for a [BigNumber] [b] and a bigint [k]: [b]'s inherited
    [valueOf] gives the object back, so ToPrimitive falls back to
    [b.toString()], the decimal text, and [+] concatenates strings. *)
Definition BigNumber_plus_bigint (n k : Z) : jstr := dec_string n ++ dec_string k.

(** [x + k] or [x - k] for a JS number [x] and a bigint [k]. *)
Definition number_bigint_arith (x k : Z) : result Z := Err BigIntMixError.

(** The operands of each return expression in JavaScript's order; a
    string's [toString(16)] is the string itself. *)
Definition compressPermit (permit : jstr) : result jstr :=
  let len := List.length permit in
  if (len =? 450)%nat then
    let* args := abi_decode eip2612_types permit in
    match args with
    | [_; _; VBigNumber value; VBigNumber deadline; VNumber v; VBytes r; VBytes s] =>
        let* value16 := BigNumber_toString (Some 16) value in
        let* deadline10 := BigNumber_toString None deadline in
        let* max10 := BigNumber_toString None MaxUint256 in
        let deadline_part :=
          if jstr_eqb deadline10 max10 then lit "00000000"
          else padStart 8 (BigNumber_plus_bigint deadline 1) in
        let* r' := BigInt r in
        let* v27 := number_bigint_arith v 27 in
        let* s' := BigInt s in
        Ok (lit "0x" ++ padStart 64 value16 ++ deadline_part ++ hexpad 64 r' ++
            hexpad 64 (Z.lor (Z.shiftl v27 255) s'))
    | _ => Err AbiCoderError
    end
  else if (len =? 514)%nat then
    let* args := abi_decode dai_types permit in
    match args with
    | [_; _; VBigNumber nonce; VBigNumber expiry; VBool _; VNumber v; VBytes r; VBytes s] =>
        let* nonce16 := BigNumber_toString (Some 16) nonce in
        let* expiry10 := BigNumber_toString None expiry in
        let* max10 := BigNumber_toString None MaxUint256 in
        let expiry_part :=
          if jstr_eqb expiry10 max10 then lit "00000000"
          else padStart 8 (BigNumber_plus_bigint expiry 1) in
        let* r' := BigInt r in
        let* v27 := number_bigint_arith v 27 in
        let* s' := BigInt s in
        Ok (lit "0x" ++ padStart 8 nonce16 ++ expiry_part ++ hexpad 64 r' ++
            hexpad 64 (Z.lor (Z.shiftl v27 255) s'))
    | _ => Err AbiCoderError
    end
  else if (len =? 706)%nat then
    let* args := abi_decode permit2_types permit in
    match args with
    | [_; _; VBigNumber amount; VNumber expiration; VNumber nonce; _; VBigNumber sigDeadline;
       VBytes signature] =>
        let* amount16 := BigNumber_toString (Some 16) amount in
        let* expiration_part :=
          if jstr_eqb (dec_string expiration) (dec_string permit2_max) then Ok (lit "00000000")
          else let* e1 := number_bigint_arith expiration 1 in Ok (hexpad 8 e1) in
        let* sigDeadline10 := BigNumber_toString None sigDeadline in
        let sigDeadline_part :=
          if jstr_eqb sigDeadline10 (dec_string permit2_max) then lit "00000000"
          else padStart 8 (BigNumber_plus_bigint sigDeadline 1) in
        let* sig := BigInt signature in
        Ok (lit "0x" ++ padStart 40 amount16 ++ expiration_part ++ hexpad 8 nonce ++
            sigDeadline_part ++ hexpad 128 sig)
    | _ => Err AbiCoderError
    end
  else if (len =? 202)%nat || (len =? 146)%nat || (len =? 194)%nat then
    Err AlreadyCompressed
  else Err InvalidPermitLength.

(** [owner], [spender] and [token] are the addresses the caller passes,
    given by their 160-bit values. *)
Definition decompressPermit (permit : jstr) (token owner spender : Z) : result jstr :=
  let len := List.length permit in
  if (len =? 202)%nat then
    let* value := BigInt (js_slice 0 66 permit) in
    let* deadline := BigInt (lit "0x" ++ js_slice 66 74 permit) in
    let r := lit "0x" ++ js_slice 74 138 permit in
    let* vs := BigInt (lit "0x" ++ js_slice 138 202 permit) in
    abi_encode eip2612_types
      [AAddress owner; AAddress spender; AUint value;
       AUint (if deadline =? 0 then MaxUint256 else deadline - 1);
       AUint (Z.shiftr vs 255 + 27);
       ABytes32 r;
       ABytes32 (lit "0x" ++ hexpad 64 (Z.land vs vs_mask))]
  else if (len =? 146)%nat then
    let* nonce := BigInt (js_slice 0 10 permit) in
    let* expiry := BigInt (lit "0x" ++ js_slice 10 18 permit) in
    let r := lit "0x" ++ js_slice 18 82 permit in
    let* vs := BigInt (lit "0x" ++ js_slice 82 146 permit) in
    abi_encode dai_types
      [AAddress owner; AAddress spender; AUint nonce;
       AUint (if expiry =? 0 then MaxUint256 else expiry - 1);
       ABool true;
       AUint (Z.shiftr vs 255 + 27);
       ABytes32 r;
       ABytes32 (lit "0x" ++ hexpad 64 (Z.land vs vs_mask))]
  else if (len =? 194)%nat then
    let* amount := BigInt (js_slice 0 42 permit) in
    let* expiration := BigInt (lit "0x" ++ js_slice 42 50 permit) in
    let* nonce := BigInt (lit "0x" ++ js_slice 50 58 permit) in
    let* sigDeadline := BigInt (lit "0x" ++ js_slice 58 66 permit) in
    let r := lit "0x" ++ js_slice 66 130 permit in
    let vs := lit "0x" ++ js_slice 130 194 permit in
    abi_encode permit2_types
      [AAddress owner; AAddress token; AUint amount;
       AUint (if expiration =? 0 then permit2_max else expiration - 1);
       AUint nonce;
       AAddress spender;
       AUint (if sigDeadline =? 0 then permit2_max else sigDeadline - 1);
       ABytesDyn (r ++ trim0x vs)]
  else if (len =? 450)%nat || (len =? 514)%nat || (len =? 706)%nat then
    Err AlreadyDecompressed
  else Err InvalidPermitLength.

(** ** Permit payloads *)

Record Eip2612Permit := {
  e_owner : Z; e_spender : Z; e_value : Z; e_deadline : Z;
  e_v : Z; e_r : Z; e_s : Z }.

Record DaiPermit := {
  d_holder : Z; d_spender : Z; d_nonce : Z; d_expiry : Z; d_allowed : bool;
  d_v : Z; d_r : Z; d_s : Z }.

Record Permit2Permit := {
  q_owner : Z; q_token : Z; q_amount : Z; q_expiration : Z; q_nonce : Z;
  q_spender : Z; q_sigDeadline : Z; q_signature : Z (* 64 bytes *) }.

Inductive PermitPayload :=
| Eip2612 (p : Eip2612Permit)
| Dai (p : DaiPermit)
| Permit2 (p : Permit2Permit).

Definition bytes32_hex (x : Z) : jstr := lit "0x" ++ hex_fixed 64 x.

(** The selector-less permit call, as [encodeFunctionData] minus [cutSelector]. *)
Definition encodePermit (p : PermitPayload) : result jstr :=
  match p with
  | Eip2612 e =>
      abi_encode eip2612_types
        [AAddress (e_owner e); AAddress (e_spender e); AUint (e_value e);
         AUint (e_deadline e); AUint (e_v e);
         ABytes32 (bytes32_hex (e_r e)); ABytes32 (bytes32_hex (e_s e))]
  | Dai d =>
      abi_encode dai_types
        [AAddress (d_holder d); AAddress (d_spender d); AUint (d_nonce d);
         AUint (d_expiry d); ABool (d_allowed d); AUint (d_v d);
         ABytes32 (bytes32_hex (d_r d)); ABytes32 (bytes32_hex (d_s d))]
  | Permit2 q =>
      abi_encode permit2_types
        [AAddress (q_owner q); AAddress (q_token q); AUint (q_amount q);
         AUint (q_expiration q); AUint (q_nonce q); AAddress (q_spender q);
         AUint (q_sigDeadline q); ABytesDyn (lit "0x" ++ hex_fixed 128 (q_signature q))]
  end.

Definition e2612_ex : Eip2612Permit :=
  {| e_owner := 17; e_spender := 99; e_value := 1000000; e_deadline := 1700000000;
     e_v := 28; e_r := 2 ^ 255 + 12345; e_s := 2 ^ 254 + 777 |}.

Definition roundtrip (p : PermitPayload) (token owner spender : Z) : result jstr :=
  let* full := encodePermit p in
  let* c := compressPermit full in
  decompressPermit c token owner spender.

(** ** Width side conditions of the compressed layouts *)

Definition is_address (x : Z) : Prop := 0 <= x < 2 ^ 160.

(** A deadline-like field survives the 4-byte slot: it is the sentinel
    [max], or it is below [2^32 - 1] so that [field + 1] fits. *)
Definition fits_slot (max x : Z) : Prop := x = max \/ 0 <= x /\ x + 1 < 2 ^ 32.

Definition fits_compressed (p : PermitPayload) : Prop :=
  match p with
  | Eip2612 e =>
      is_address (e_owner e) /\ is_address (e_spender e) /\
      0 <= e_value e < 2 ^ 256 /\ fits_slot MaxUint256 (e_deadline e) /\
      (e_v e = 27 \/ e_v e = 28) /\ 0 <= e_r e < 2 ^ 256 /\ 0 <= e_s e < 2 ^ 255
  | Dai d =>
      is_address (d_holder d) /\ is_address (d_spender d) /\
      0 <= d_nonce d < 2 ^ 32 /\ fits_slot MaxUint256 (d_expiry d) /\
      (d_v d = 27 \/ d_v d = 28) /\ 0 <= d_r d < 2 ^ 256 /\ 0 <= d_s d < 2 ^ 255
  | Permit2 q =>
      is_address (q_owner q) /\ is_address (q_token q) /\ is_address (q_spender q) /\
      0 <= q_amount q < 2 ^ 160 /\ fits_slot permit2_max (q_expiration q) /\
      0 <= q_nonce q < 2 ^ 32 /\ fits_slot permit2_max (q_sigDeadline q) /\
      0 <= q_signature q < 2 ^ 512
  end.

(** A compressed DAI permit (nonce 5, no expiry). *)
Definition dai_compressed_ex : jstr :=
  lit "0x" ++ hex_fixed 8 5 ++ hex_fixed 8 0 ++ hex_fixed 64 123 ++ hex_fixed 64 (2 ^ 200).

(** A run of 32-byte ABI words. *)
Definition words (ws : list Z) : jstr := List.concat (map (hex_fixed 64) ws).

(** ** calculateSubscriptionRate (utils/index.ts) *)

(** The pay cycles, with their string values "/daily", "/weekly",
    "/monthly" and "/yearly". *)
Inductive SubscriptionPayCycle := Daily | Weekly | Monthly | Yearly.

(** [subscriptionCost: string | bigint] *)
Inductive CostArg := CostString (s : jstr) | CostBigInt (n : Z).

Definition timeDurations (c : SubscriptionPayCycle) : Z :=
  match c with
  | Daily => 24 * 60 * 60
  | Weekly => 7 * 24 * 60 * 60
  | Monthly => 30 * 24 * 60 * 60
  | Yearly => 365 * 24 * 60 * 60
  end.

(** bigint [/] truncates toward zero: [Z.quot]. *)
Definition calculateSubscriptionRate (subscriptionCost : CostArg) (payCycle : SubscriptionPayCycle)
  : result Z :=
  let* cost := match subscriptionCost with
               | CostString s => BigInt s
               | CostBigInt n => Ok n
               end in
  Ok (Z.quot cost (timeDurations payCycle)).

(** ** useSubscriptionInfo (hook/useSubscriptionModal.tsx) *)

(** [useContractData]: [data ? BigInt(data.toString()) : null] on the
    contract read [data] (a bigint, so [0n] is falsy). *)
Definition useContractData (data : option Z) : option Z :=
  match data with
  | Some v => if v =? 0 then None else Some v
  | None => None
  end.

(** [parseUnits("1", 12)] *)
Definition unit12 : Z := 10 ^ 12.

(** The two versions of the hook share [needsDeposit], [depositAmount] and
    [needsApproval]. [cost18] and [cost6] are [parseUnits(cost, 18)] and
    [parseUnits(cost, 6)] of the subscription cost. *)
Definition needsDeposit_of (papayaBalance : option Z) (cost18 : Z) : bool :=
  match papayaBalance with None => true | Some b => b <? cost18 end.

Definition depositAmount_of (papayaBalance : option Z) (cost6 : Z) : Z :=
  match papayaBalance with
  | Some b => if 0 <? b then cost6 - Z.quot b unit12 else cost6
  | None => cost6
  end.

Definition needsApproval_of (allowance : option Z) (depositAmount : Z) : bool :=
  match allowance with None => true | Some a => a <? depositAmount end.

(** [x != null && x >= y] *)
Definition present_ge (x : option Z) (y : Z) : bool :=
  match x with Some v => y <=? v | None => false end.

Module V1.

Record SubscriptionInfo := {
  papayaBalance : option Z; allowance : option Z; tokenBalance : option Z;
  needsDeposit : bool; depositAmount : Z; needsApproval : bool; canSubscribe : bool }.

Definition useSubscriptionInfo (papayaData allowanceData tokenData : option Z)
  (cost18 cost6 : Z) : SubscriptionInfo :=
  let papayaBalance := useContractData papayaData in
  let allowance := useContractData allowanceData in
  let tokenBalance := useContractData tokenData in
  let needsDeposit := needsDeposit_of papayaBalance cost18 in
  let depositAmount := depositAmount_of papayaBalance cost6 in
  let needsApproval := needsApproval_of allowance depositAmount in
  let canSubscribe :=
    (negb needsDeposit && present_ge papayaBalance cost18) ||
    (needsDeposit && present_ge tokenBalance cost6) in
  {| papayaBalance := papayaBalance; allowance := allowance; tokenBalance := tokenBalance;
     needsDeposit := needsDeposit; depositAmount := depositAmount;
     needsApproval := needsApproval; canSubscribe := canSubscribe |}.

End V1.

Module V2.

Record SubscriptionInfo := {
  papayaBalance : option Z; allowance : option Z; tokenBalance : option Z;
  needsDeposit : bool; depositAmount : Z; needsApproval : bool;
  hasSufficientBalance : bool; canSubscribe : bool }.

Definition useSubscriptionInfo (papayaData allowanceData tokenData : option Z)
  (cost18 cost6 : Z) : SubscriptionInfo :=
  let papayaBalance := useContractData papayaData in
  let allowance := useContractData allowanceData in
  let tokenBalance := useContractData tokenData in
  let needsDeposit := needsDeposit_of papayaBalance cost18 in
  let depositAmount := depositAmount_of papayaBalance cost6 in
  let needsApproval := needsApproval_of allowance depositAmount in
  let hasSufficientBalance := present_ge tokenBalance depositAmount in
  let canSubscribe := negb needsDeposit && present_ge papayaBalance cost18 in
  {| papayaBalance := papayaBalance; allowance := allowance; tokenBalance := tokenBalance;
     needsDeposit := needsDeposit; depositAmount := depositAmount;
     needsApproval := needsApproval; hasSufficientBalance := hasSufficientBalance;
     canSubscribe := canSubscribe |}.

End V2.

(** ** useTokenDetails (hook/useSubscriptionModal.tsx, first version) *)

(** [toLowerCase] on ASCII text. *)
Definition lower_char (c : ascii) : ascii :=
  let n := nat_of_ascii c in
  if (65 <=? n)%nat && (n <=? 90)%nat then ascii_of_nat (n + 32) else c.

Definition toLowerCase (s : jstr) : jstr := map lower_char s.

(** The fields of the network configuration the hook reads. *)
Record Token := { name : jstr; ercAddress : jstr; papayaAddress : jstr }.

Record Network := { chainId : Z; tokens : list Token }.

(** [networks] (constants/networks): Polygon and Binance Smart Chain. *)
Definition networks : list Network :=
  [ {| chainId := 137;
       tokens := [ {| name := lit "USDC";
                      ercAddress := lit "0x3c499c542cEF5E3811e1192ce70d8cC03d5c3359";
                      papayaAddress := lit "0xb8fD71A4d29e2138056b2a309f97b96ec2A8EeD7" |};
                   {| name := lit "USDT";
                      ercAddress := lit "0xc2132d05d31c914a87c6611c10748aeb04b58e8f";
                      papayaAddress := lit "0xD3B79811fFb55708A4fe848D0b131030a347887C" |} ] |};
    {| chainId := 56;
       tokens := [ {| name := lit "USDC";
                      ercAddress := lit "0x8ac76a51cc950d9822d68b83fe1ad97b32cd580d";
                      papayaAddress := lit "0xD3B79811fFb55708A4fe848D0b131030a347887C" |};
                   {| name := lit "USDT";
                      ercAddress := lit "0x55d398326f99059fF775485246999027B3197955";
                      papayaAddress := lit "0xB9BE933e8a17dc0d9bf69aFE9E91C54330CF6dF4" |} ] |} ].

(** [a ?? b] on values that are an object or undefined. *)
Definition js_coalesce {A} (a b : option A) : option A :=
  match a with Some _ => a | None => b end.

(** [!x] on a value that is an object or undefined. *)
Definition js_not {A} (x : option A) : bool :=
  match x with Some _ => false | None => true end.

Record TokenDetailsState := {
  currentNetwork : option Network;
  tokenDetails : option Token;
  isUnsupportedNetwork : bool;
  isUnsupportedToken : bool }.

Definition useTokenDetails (networks : list Network) (network_chainId : Z)
  (subscription_token : jstr) : result TokenDetailsState :=
  match find (fun n => chainId n =? 137) networks with
  | None => Err MissingDefaultNetwork
  | Some defaultNetwork =>
      match find (fun t => jstr_eqb (toLowerCase (name t)) (lit "usdt")) (tokens defaultNetwork) with
      | None => Err MissingDefaultToken
      | Some defaultToken =>
          let currentNetwork :=
            js_coalesce (find (fun n => chainId n =? network_chainId) networks)
                        (Some defaultNetwork) in
          match currentNetwork with
          | None => Err UndefinedProperty
          | Some cn =>
              let tokenDetails :=
                js_coalesce
                  (find (fun t => jstr_eqb (toLowerCase (name t)) (toLowerCase subscription_token))
                        (tokens cn))
                  (Some defaultToken) in
              Ok {| currentNetwork := currentNetwork; tokenDetails := tokenDetails;
                    isUnsupportedNetwork := js_not currentNetwork;
                    isUnsupportedToken := js_not tokenDetails |}
          end
      end
  end.

(** The flags useSubscriptionModal returns: it calls useTokenDetails on
    [network ?? defaultNetwork] (chain 137) and passes both flags through,
    in the fallback branch and in the normal one. *)
Definition useSubscriptionModal_flags (network_chainId : option Z) (subscription_token : jstr)
  : result (bool * bool) :=
  let activeChainId := match network_chainId with Some c => c | None => 137 end in
  let* st := useTokenDetails networks activeChainId subscription_token in
  Ok (isUnsupportedNetwork st, isUnsupportedToken st).

(** ** buildBySigTraits (utils/helpers) *)

(** [NonceType]: Account, Selector, Unique, Invalid. *)
Definition NonceType_Account : Z := 0.
Definition NonceType_Selector : Z := 1.
Definition NonceType_Unique : Z := 2.
Definition NonceType_Invalid : Z := 3.

(** [constants.AddressZero] *)
Definition AddressZero : jstr := lit "0x0000000000000000000000000000000000000000".

(** A JavaScript number: a finite value [num / den] (every double is
    one), NaN, or an infinity. *)
Inductive js_number := JsFinite (num : Z) (den : positive) | JsNaN | JsInfinity (pos : bool).

(** An integer as a number. *)
Definition js_int (z : Z) : js_number := JsFinite z 1.
Coercion js_int : Z >-> js_number.

(** [x > c] for a number [x] and an integer [c] (a number or a bigint):
    by mathematical value; NaN compares false. *)
Definition js_gt (x : js_number) (c : Z) : bool :=
  match x with
  | JsFinite n d => c * Zpos d <? n
  | JsNaN => false
  | JsInfinity pos => pos
  end.

(** [BigInt(x)] for a number [x]: a RangeError unless [x] is an integer. *)
Definition BigInt_of_number (x : js_number) : result Z :=
  match x with
  | JsFinite n d => if n mod Zpos d =? 0 then Ok (n / Zpos d) else Err BigIntRangeError
  | _ => Err BigIntRangeError
  end.

(** [nonceType], [deadline] and [nonce] are numbers, [relayer] the
    address string; the operands of the sum are evaluated left to right. *)
Definition buildBySigTraits (nonceType deadline : js_number) (relayer : jstr) (nonce : js_number)
  : result Z :=
  if js_gt nonceType 3 then Err WrongNonceType
  else if js_gt deadline 1099511627775 (* 0xffffffffff *) then Err WrongDeadline
  else if (42 <? List.length relayer)%nat then Err WrongRelayer
  else if js_gt nonce (2 ^ 128 - 1) then Err WrongNonce
  else
    let* nt := BigInt_of_number nonceType in
    let* dl := BigInt_of_number deadline in
    let* r := BigInt relayer in
    let* n := BigInt_of_number nonce in
    Ok (Z.shiftl nt 254 + Z.shiftl dl 208 +
        Z.shiftl (Z.land r (2 ^ 80 - 1) (* 0xffffffffffffffffffff *)) 128 + n).

(** The orchestrator's call:
    [buildBySigTraits({deadline: 0xffffffffff, nonceType: NonceType.Selector, nonce: 0})],
    with the default relayer. *)
Definition orchestrator_traits : result Z :=
  buildBySigTraits NonceType_Selector 1099511627775 AddressZero 0.

(** A relayer whose only set bit is bit 80. *)
Definition relayer_bit80 : jstr := lit "0x100000000000000000000".

(** ** Static ABI types *)

(** The static types the codec's calls use (uintN for N <= 256). *)
Definition valid_type (t : abi_type) : Prop :=
  match t with TUint bits => bits <= 256 | TBytes => False | _ => True end.

(** What [decode] gives back for a static argument [encode] accepted. *)
Definition static_decoded (t : abi_type) (a : abi_arg) : abi_value :=
  match t, a with
  | TUint bits, AUint v => uint_value bits v
  | TAddress, AAddress x => VAddress x
  | TBool, ABool b => VBool b
  | TBytes32, ABytes32 s =>
      match arrayify s with Some (_, v) => VBytes (bytes32_hex v) | None => VBytes [] end
  | _, _ => VBytes []
  end.

(** ** getPermit (utils/index.ts), after the signature *)

(** [cutSelector] (utils/helpers): ["0x" + data.substring(2 + 8)]. *)
Definition cutSelector (data : jstr) : jstr :=
  let hexPrefix := lit "0x" in
  hexPrefix ++ skipn (List.length hexPrefix + 8) data.

(** ethers v5 [Interface.encodeFunctionData] (library model):
    [hexConcat([selector, encode(inputs, values)])], with [selector] the
    8 hex digits of the function's 4-byte selector. *)
Definition encodeFunctionData (selector : jstr) (tys : list abi_type) (vals : list abi_arg)
  : result jstr :=
  let* d := abi_encode tys vals in
  Ok (lit "0x" ++ selector ++ skipn 2 d).

(** [toUpperCase] on ASCII text. *)
Definition upper_char (c : ascii) : ascii :=
  let n := nat_of_ascii c in
  if (97 <=? n)%nat && (n <=? 122)%nat then ascii_of_nat (n - 32) else c.

Definition toUpperCase (s : jstr) : jstr := map upper_char s.

(** [permitContract.interface.encodeFunctionData("permit", ...)] in the two
    branches of getPermit: USDT's DAI-like permit with [allowed = true], and
    the EIP-2612 permit for every other token. [owner] and [spender] are the
    addresses, [amount], [deadline] and [nonce] the integers ethers parses
    from the arguments, [v], [r], [s] the parts of [Signature.from]. *)
Definition permitCall_of (selector tokenType : jstr) (owner spender amount deadline nonce v r s : Z)
  : result jstr :=
  if jstr_eqb (toUpperCase tokenType) (lit "USDT") then
    encodeFunctionData selector dai_types
      [AAddress owner; AAddress spender; AUint nonce; AUint deadline; ABool true;
       AUint v; ABytes32 (bytes32_hex r); ABytes32 (bytes32_hex s)]
  else
    encodeFunctionData selector eip2612_types
      [AAddress owner; AAddress spender; AUint amount; AUint deadline;
       AUint v; ABytes32 (bytes32_hex r); ABytes32 (bytes32_hex s)].

(** The value of [constants.AddressZero]. *)
Definition AddressZero_value : Z := 0.

(** The end of getPermit: cut the selector, then return the compressed
    permit, or decompress it again with [AddressZero] as the token. *)
Definition getPermit_tail (permitCall : jstr) (owner spender : Z) (compact : bool) : result jstr :=
  let permitCallNoSelector := cutSelector permitCall in
  if compact then compressPermit permitCallNoSelector
  else
    let* c := compressPermit permitCallNoSelector in
    decompressPermit c AddressZero_value owner spender.

Definition getPermit_of (selector tokenType : jstr) (owner spender amount deadline nonce v r s : Z)
  (compact : bool) : result jstr :=
  let* permitCall := permitCall_of selector tokenType owner spender amount deadline nonce v r s in
  getPermit_tail permitCall owner spender compact.

(** The compressed strings in lowercase hex: the 202-, 146- and 194-long
    layouts compressPermit writes, every field in its fixed width. *)
Definition canonical_compressed (c : jstr) : Prop :=
  (exists value deadline r vs,
     0 <= value < 2 ^ 256 /\ 0 <= deadline < 2 ^ 32 /\ 0 <= r < 2 ^ 256 /\ 0 <= vs < 2 ^ 256 /\
     c = lit "0x" ++ hex_fixed 64 value ++ hex_fixed 8 deadline ++ hex_fixed 64 r ++ hex_fixed 64 vs)
  \/ (exists nonce expiry r vs,
     0 <= nonce < 2 ^ 32 /\ 0 <= expiry < 2 ^ 32 /\ 0 <= r < 2 ^ 256 /\ 0 <= vs < 2 ^ 256 /\
     c = lit "0x" ++ hex_fixed 8 nonce ++ hex_fixed 8 expiry ++ hex_fixed 64 r ++ hex_fixed 64 vs)
  \/ (exists amount expiration nonce sigDeadline signature,
     0 <= amount < 2 ^ 160 /\ 0 <= expiration < 2 ^ 32 /\ 0 <= nonce < 2 ^ 32 /\
     0 <= sigDeadline < 2 ^ 32 /\ 0 <= signature < 2 ^ 512 /\
     c = lit "0x" ++ hex_fixed 40 amount ++ hex_fixed 8 expiration ++ hex_fixed 8 nonce ++
         hex_fixed 8 sigDeadline ++ hex_fixed 128 signature).

(** ** getPapayaAddress (utils/index.ts) *)

(** [null] is [None]; [network.tokens?.[0]?.papayaAddress] is falsy when
    the network has no token or the address is the empty string. *)
Definition getPapayaAddress (cid : Z) : option jstr :=
  match find (fun n => chainId n =? cid) networks with
  | None => None
  | Some network =>
      match nth_error (tokens network) 0 with
      | Some t => match papayaAddress t with [] => None | a => Some a end
      | None => None
      end
  end.

(** ** getAssets (utils/index.ts) and useAssets (hook/useSubscriptionModal.tsx) *)

(** The values a property read on a plain object literal can give:
    an own string, an inherited [Object.prototype] member (a function, or
    the prototype object itself for [__proto__]), or [undefined]; and what
    calling such a member can give: a boolean, the wrapper object of a
    primitive, or a new empty object. *)
Inductive js_value :=
| JsString (s : jstr)
| JsFunction (name : jstr)
| JsObject
| JsUndefined
| JsBool (b : bool)
| JsWrapper (prim : js_value)
| JsNewObject.

Definition js_truthy (v : js_value) : bool :=
  match v with
  | JsString s => match s with [] => false | _ => true end
  | JsUndefined => false
  | JsBool b => b
  | _ => true
  end.

(** [a || b] *)
Definition js_or (a b : js_value) : js_value := if js_truthy a then a else b.

(** The methods every object literal inherits from [Object.prototype]. *)
Definition object_prototype_methods : list jstr :=
  map lit ["constructor"; "__defineGetter__"; "__defineSetter__"; "hasOwnProperty";
           "__lookupGetter__"; "__lookupSetter__"; "isPrototypeOf"; "propertyIsEnumerable";
           "toString"; "valueOf"; "toLocaleString"]%string.

(** [obj[key]] on an object literal with the own properties [own]. *)
Definition record_get (own : list (jstr * jstr)) (key : jstr) : js_value :=
  match find (fun kv => jstr_eqb (fst kv) key) own with
  | Some (_, v) => JsString v
  | None =>
      if jstr_eqb key (lit "__proto__") then JsObject
      else if existsb (jstr_eqb key) object_prototype_methods then JsFunction key
      else JsUndefined
  end.

(** The imported SVG assets, by module path. *)
Definition PolygonIcon : jstr := lit "../assets/chains/polygon.svg".
Definition BnbIcon : jstr := lit "../assets/chains/bnb.svg".
Definition UsdtIcon : jstr := lit "../assets/tokens/usdt.svg".
Definition UsdcIcon : jstr := lit "../assets/tokens/usdc.svg".

Definition chainIcons : list (jstr * jstr) := [(lit "polygon", PolygonIcon); (lit "bnb", BnbIcon)].
Definition tokenIcons : list (jstr * jstr) := [(lit "usdt", UsdtIcon); (lit "usdc", UsdcIcon)].

(** [type] is a string at run time; other values than "chain" and
    "token" log an error and give the empty string. *)
Definition getAssets (key type : jstr) : js_value :=
  let lowerKey := toLowerCase key in
  if jstr_eqb type (lit "chain") then js_or (record_get chainIcons lowerKey) (JsString [])
  else if jstr_eqb type (lit "token") then js_or (record_get tokenIcons lowerKey) (JsString [])
  else JsString [].

(** [nativeTokenIdMap[network.chainId]] for a numeric chain id: the
    numeric keys name no inherited member. *)
Definition nativeTokenIdMap (cid : Z) : option jstr :=
  if cid =? 137 then Some (lit "polygon")
  else if cid =? 56 then Some (lit "bnb")
  else None.

(** [f(arg)] for the inherited [Object.prototype] member [f] named
    [name], called with [this] undefined: [Object(arg)] is ToObject (a
    wrapper for a primitive, a new object for undefined, an object itself);
    [toString] gives "[object Undefined]"; [isPrototypeOf] gives false for
    a primitive; every other step that needs ToObject(this) throws a
    TypeError. *)
Definition call_object_method (name : jstr) (arg : js_value) : result js_value :=
  if jstr_eqb name (lit "constructor") then
    Ok (match arg with
        | JsString _ | JsBool _ => JsWrapper arg
        | JsUndefined => JsNewObject
        | _ => arg
        end)
  else if jstr_eqb name (lit "toString") then Ok (JsString (lit "[object Undefined]"))
  else if jstr_eqb name (lit "isPrototypeOf") then
    match arg with
    | JsString _ | JsBool _ | JsUndefined => Ok (JsBool false)
    | _ => Err ToObjectError
    end
  else Err ToObjectError.

(** React's state setter [setX(action)]: a function is an updater, called
    on the previous state ([basicStateReducer]); any other value becomes the
    state. *)
Definition react_set (prev action : js_value) : result js_value :=
  match action with
  | JsFunction name => call_object_method name prev
  | _ => Ok action
  end.

(** The values the effect of useAssets (first version) passes to
    [setChainIcon] and [setTokenIcon]. *)
Definition useAssets_effect_args (network_chainId : Z) (subscription_token : jstr)
  : js_value * js_value :=
  let chainName := match nativeTokenIdMap network_chainId with
                   | Some ((_ :: _) as s) => s
                   | _ => lit "polygon"
                   end in
  let chain := getAssets chainName (lit "chain") in
  let token := getAssets (toLowerCase subscription_token) (lit "token") in
  (js_or chain (getAssets (lit "polygon") (lit "chain")),
   js_or token (getAssets (lit "usdt") (lit "token"))).

(** The state [(chainIcon, tokenIcon)] useAssets returns after its effect
    ran on the state [prev]. *)
Definition useAssets (prev : js_value * js_value) (network_chainId : Z) (subscription_token : jstr)
  : result (js_value * js_value) :=
  let args := useAssets_effect_args network_chainId subscription_token in
  let* chainIcon := react_set (fst prev) (fst args) in
  let* tokenIcon := react_set (snd prev) (snd args) in
  Ok (chainIcon, tokenIcon).

(** ** getReadableErrorMessage (utils/index.ts) *)

(** The thrown value: falsy, a non-object ([typeof error !== "object"]),
    or an object whose [message] is a string or absent. *)
Inductive ErrorArg := ErrFalsy | ErrNonObject | ErrObject (message : option jstr).

Fixpoint prefixb (p s : jstr) : bool :=
  match p, s with
  | [], _ => true
  | c :: p', d :: s' => if ascii_dec c d then prefixb p' s' else false
  | _ :: _, [] => false
  end.

(** [s.includes(p)] *)
Fixpoint js_includes (s p : jstr) : bool :=
  prefixb p s || match s with [] => false | _ :: s' => js_includes s' p end.

(** [error.message?.includes(p)], as a condition. *)
Definition message_includes (message : option jstr) (p : jstr) : bool :=
  match message with Some m => js_includes m p | None => false end.

(** The sixteen checks, in source order: the pattern and the text. *)
Definition error_messages : list (jstr * jstr) :=
  map (fun pt => (lit (fst pt), lit (snd pt)))
  [("User rejected the request", "The transaction was rejected by the user.");
   ("insufficient funds", "The account has insufficient funds to complete this transaction.");
   ("gas required exceeds allowance", "The transaction requires more gas than allowed.");
   ("execution reverted",
    "The transaction was reverted by the contract. Check the input or contract state.");
   ("network error", "A network error occurred. Please check your internet connection.");
   ("chain mismatch",
    "You are connected to the wrong network. Please switch to the correct chain.");
   ("invalid address", "An invalid address was provided. Please check the input.");
   ("unsupported ABI", "The provided ABI is not supported.");
   ("provider error", "An error occurred with the wallet provider. Please try again.");
   ("contract not deployed", "The contract is not deployed on the selected network.");
   ("max nonce", "The nonce for the transaction exceeds the allowed limit.");
   ("invalid signature", "The transaction signature is invalid. Please try signing again.");
   ("timeout", "The transaction request timed out. Please try again.");
   ("failed to fetch",
    "Failed to connect to the blockchain. Please check your network and try again.");
   ("call exception",
    "A call exception occurred. The contract may not support the called function.");
   ("unknown error", "An unknown error occurred. Please try again later.")]%string.

Definition fallback_error_message : jstr :=
  lit "An error occurred during the transaction. Please check the details and try again.".

Definition getReadableErrorMessage (error : ErrorArg) : jstr :=
  match error with
  | ErrObject message =>
      match find (fun pt => message_includes message (fst pt)) error_messages with
      | Some (_, text) => text
      | None => fallback_error_message
      end
  | _ => lit "An unknown error occurred."
  end.

(** The receipt-error effect of the Subscribe button: the text passed to
    [onError], if it is called ([error?.message] is the message of an
    object and [undefined] otherwise). *)
Definition subscribe_error_report (error : ErrorArg) : option jstr :=
  let message := match error with ErrObject m => m | _ => None end in
  if negb (message_includes message (lit "User rejected the request"))
  then Some (getReadableErrorMessage error)
  else None.

(** ** The call SubscriptionModal prepares (components/SubscriptionModal.tsx) *)

(** [functionName] with its [args]: [approve(papayaAddress, depositAmount)],
    [deposit(depositAmount, false)] or
    [subscribe(toAddress, calculateSubscriptionRate(cost18, payCycle), 0)]. *)
Inductive ModalCall :=
| CallApprove (spender : jstr) (amount : Z)
| CallDeposit (amount : Z) (isPermit2 : bool)
| CallSubscribe (toAddress : jstr) (rate : result Z) (projectId : Z).

Definition modalCall (needsApproval needsDeposit : bool) (depositAmount : Z)
  (papayaAddress toAddress : jstr) (cost18 : Z) (payCycle : SubscriptionPayCycle) : ModalCall :=
  if needsApproval then CallApprove papayaAddress depositAmount
  else if needsDeposit then CallDeposit depositAmount false
  else CallSubscribe toAddress (calculateSubscriptionRate (CostBigInt cost18) payCycle) 0.

(** The USDT entry of the Polygon network, useTokenDetails' default token. *)
Definition polygon_usdt : Token :=
  {| name := lit "USDT";
     ercAddress := lit "0xc2132d05d31c914a87c6611c10748aeb04b58e8f";
     papayaAddress := lit "0xD3B79811fFb55708A4fe848D0b131030a347887C" |}.

(** * Lemmas on hex strings *)

Lemma ok_inj : forall {A} (a b : A), Ok a = Ok b -> a = b.
Proof. intros A a b H. congruence. Qed.

Lemma hex_fixed_length : forall w n, List.length (hex_fixed w n) = w.
Proof.
  induction w as [|w IH]; intros n; simpl; [reflexivity|].
  rewrite length_app, IH; simpl; lia.
Qed.

Lemma hex_char_digit : forall d, 0 <= d < 16 -> digit_val 16 (hex_char d) = Some d.
Proof.
  intros d Hd.
  assert (d = 0 \/ d = 1 \/ d = 2 \/ d = 3 \/ d = 4 \/ d = 5 \/ d = 6 \/ d = 7 \/
          d = 8 \/ d = 9 \/ d = 10 \/ d = 11 \/ d = 12 \/ d = 13 \/ d = 14 \/ d = 15)
    as Hc by lia.
  repeat destruct Hc as [Hc|Hc]; subst; reflexivity.
Qed.

Lemma hex_char_not_space : forall d, 0 <= d < 16 -> is_js_space (hex_char d) = false.
Proof.
  intros d Hd.
  assert (d = 0 \/ d = 1 \/ d = 2 \/ d = 3 \/ d = 4 \/ d = 5 \/ d = 6 \/ d = 7 \/
          d = 8 \/ d = 9 \/ d = 10 \/ d = 11 \/ d = 12 \/ d = 13 \/ d = 14 \/ d = 15)
    as Hc by lia.
  repeat destruct Hc as [Hc|Hc]; subst; reflexivity.
Qed.

Lemma hex_fixed_is_hex : forall w n, forallb is_hex (hex_fixed w n) = true.
Proof.
  induction w as [|w IH]; intros n; simpl; [reflexivity|].
  rewrite forallb_app, IH; simpl.
  unfold is_hex; rewrite hex_char_digit by (apply Z.mod_pos_bound; lia).
  reflexivity.
Qed.

Lemma digits_value_app : forall b l1 l2,
  digits_value b (l1 ++ l2) = fold_left (digits_step b) l2 (digits_value b l1).
Proof. intros; unfold digits_value; apply fold_left_app. Qed.

Lemma pow16_S : forall w, 16 ^ Z.of_nat (S w) = 16 * 16 ^ Z.of_nat w.
Proof. intros w; rewrite Nat2Z.inj_succ, Z.pow_succ_r; lia. Qed.

Lemma pow16_pos : forall w, 0 < 16 ^ Z.of_nat w.
Proof. intros w; apply Z.pow_pos_nonneg; lia. Qed.

Lemma digits_value_hex_fixed : forall w n, 0 <= n ->
  digits_value 16 (hex_fixed w n) = Some (n mod 16 ^ Z.of_nat w).
Proof.
  induction w as [|w IH]; intros n Hn.
  - simpl. rewrite Z.mod_1_r. reflexivity.
  - cbn [hex_fixed]. rewrite digits_value_app, IH by (apply Z.div_pos; lia).
    cbn [fold_left]. unfold digits_step.
    rewrite hex_char_digit by (apply Z.mod_pos_bound; lia).
    f_equal. rewrite pow16_S, Z.rem_mul_r by (pose proof (pow16_pos w); lia).
    lia.
Qed.

Lemma hex_fixed_zero : forall w, hex_fixed w 0 = repeat "0"%char w.
Proof.
  induction w as [|w IH]; [reflexivity|].
  cbn [hex_fixed]. rewrite Z.div_0_l, Z.mod_0_l, IH by lia.
  change [hex_char 0] with (repeat "0"%char 1).
  rewrite <- repeat_app. f_equal. lia.
Qed.

Lemma hex_fixed_add : forall b a n, 0 <= n ->
  hex_fixed (a + b) n = hex_fixed a (n / 16 ^ Z.of_nat b) ++ hex_fixed b n.
Proof.
  induction b as [|b IH]; intros a n Hn.
  - rewrite Nat.add_0_r, Z.div_1_r, app_nil_r. reflexivity.
  - rewrite Nat.add_succ_r. cbn [hex_fixed].
    rewrite IH by (apply Z.div_pos; lia).
    rewrite app_assoc, pow16_S, Z.div_div by (try pose proof (pow16_pos b); lia).
    reflexivity.
Qed.

Lemma hex_len_spec : forall n, 0 <= n ->
  (1 <= hex_len n)%nat /\ n < 16 ^ Z.of_nat (hex_len n) /\
  (forall w, n < 16 ^ Z.of_nat w -> (1 <= w)%nat -> (hex_len n <= w)%nat).
Proof.
  intros n Hn. unfold hex_len.
  destruct (Z.leb_spec n 0) as [H0|H0].
  - split; [lia|split]; [simpl; lia| intros; lia].
  - assert (Hl := Z.log2_nonneg n).
    assert (Hp : forall k, 0 <= k -> 16 ^ k = 2 ^ (4 * k)).
    { intros k Hk. rewrite Z.pow_mul_r by lia. reflexivity. }
    assert (Hq : 0 <= Z.log2 n / 4) by (apply Z.div_pos; lia).
    split; [lia|split].
    + rewrite Z2Nat.id, Hp by lia.
      destruct (Z.log2_spec n H0) as [_ Hs].
      eapply Z.lt_le_trans; [exact Hs|].
      apply Z.pow_le_mono_r; [lia|].
      pose proof (Z.mod_pos_bound (Z.log2 n) 4).
      pose proof (Z.div_mod (Z.log2 n) 4). lia.
    + intros w Hw Hw1.
      rewrite Hp in Hw by lia.
      assert (Z.log2 n < 4 * Z.of_nat w).
      { apply Z.log2_lt_pow2; lia. }
      assert (Z.log2 n / 4 < Z.of_nat w).
      { apply Z.div_lt_upper_bound; lia. }
      lia.
Qed.

Lemma hexpad_fixed : forall w n, (1 <= w)%nat -> 0 <= n < 16 ^ Z.of_nat w ->
  hexpad w n = hex_fixed w n.
Proof.
  intros w n Hw Hn.
  destruct (hex_len_spec n ltac:(lia)) as (H1 & H2 & H3).
  specialize (H3 w ltac:(lia) Hw).
  unfold hexpad, toString16, padStart.
  destruct (Z.ltb_spec n 0) as [Hneg|_]; [lia|].
  rewrite hex_fixed_length.
  replace w with ((w - hex_len n) + hex_len n)%nat at 2 by lia.
  rewrite hex_fixed_add, Z.div_small, hex_fixed_zero by lia.
  reflexivity.
Qed.

Lemma hex_fixed_S_snoc : forall w n,
  hex_fixed (S w) n = hex_fixed w (n / 16) ++ [hex_char (n mod 16)].
Proof. reflexivity. Qed.

Lemma nonempty_digits_app_snoc : forall b l c,
  nonempty_digits b (l ++ [c]) = digits_value b (l ++ [c]).
Proof. intros b l c; destruct l; reflexivity. Qed.

Lemma string_to_bigint_hex_fixed : forall w n, (1 <= w)%nat -> 0 <= n ->
  string_to_bigint (lit "0x" ++ hex_fixed w n) = Some (n mod 16 ^ Z.of_nat w).
Proof.
  intros w n Hw Hn. destruct w as [|w]; [lia|].
  rewrite hex_fixed_S_snoc.
  set (X := hex_fixed w (n / 16)).
  assert (Hc : is_js_space (hex_char (n mod 16)) = false)
    by (apply hex_char_not_space, Z.mod_pos_bound; lia).
  unfold string_to_bigint, js_trim.
  assert (E : drop_spaces (lit "0x" ++ X ++ [hex_char (n mod 16)])
              = ("0"%char :: "x"%char :: X) ++ [hex_char (n mod 16)]) by reflexivity.
  rewrite E, rev_unit. cbn [drop_spaces]. rewrite Hc. cbv iota.
  rewrite <- rev_unit.
  rewrite rev_involutive. cbn [app].
  cbn - [nonempty_digits X].
  rewrite nonempty_digits_app_snoc.
  exact (digits_value_hex_fixed (S w) n Hn).
Qed.

Lemma BigInt_hex_fixed : forall w n, (1 <= w)%nat -> 0 <= n < 16 ^ Z.of_nat w ->
  BigInt (lit "0x" ++ hex_fixed w n) = Ok n.
Proof.
  intros w n Hw Hn. unfold BigInt.
  rewrite string_to_bigint_hex_fixed, Z.mod_small by lia. reflexivity.
Qed.

Lemma skipn_length_app : forall (l m : jstr) k,
  skipn (List.length l + k) (l ++ m) = skipn k m.
Proof. induction l as [|c l IH]; intros; simpl; auto. Qed.

Lemma firstn_length_app : forall (l m : jstr), firstn (List.length l) (l ++ m) = l.
Proof. induction l as [|c l IH]; intros; simpl; [reflexivity|]. rewrite IH. reflexivity. Qed.

Lemma js_slice_mid : forall (p x q : jstr) a b,
  a = List.length p -> b = (List.length p + List.length x)%nat ->
  js_slice a b (p ++ x ++ q) = x.
Proof.
  intros p x q a b -> ->. unfold js_slice.
  replace (List.length p + List.length x - List.length p)%nat with (List.length x) by lia.
  rewrite <- (Nat.add_0_r (List.length p)) at 1.
  rewrite skipn_length_app. simpl. apply firstn_length_app.
Qed.

Lemma digit_val_bound : forall b c d, digit_val b c = Some d -> 0 <= d < b.
Proof.
  intros b c d H. unfold digit_val in H.
  set (n := Z.of_nat (nat_of_ascii c)) in H.
  destruct ((48 <=? n) && (n <=? 57)) eqn:E1;
    [|destruct ((97 <=? n) && (n <=? 102)) eqn:E2;
      [|destruct ((65 <=? n) && (n <=? 70)) eqn:E3]];
    try discriminate;
    repeat match goal with E : (_ && _) = true |- _ => apply andb_true_iff in E as [? ?] end;
    repeat match goal with E : (_ <=? _) = true |- _ => apply Z.leb_le in E end;
    match type of H with context [?x <? b] => destruct (Z.ltb_spec x b) end;
    try discriminate; injection H as <-; lia.
Qed.

Lemma digits_value_bound : forall b l v, 0 < b ->
  digits_value b l = Some v -> 0 <= v < b ^ Z.of_nat (List.length l).
Proof.
  intros b l. induction l as [|c l IH] using rev_ind; intros v Hb H.
  - injection H as <-. simpl. lia.
  - rewrite digits_value_app in H. cbn in H. unfold digits_step in H.
    destruct (digits_value b l) as [a|] eqn:Ha; [|discriminate].
    destruct (digit_val b c) as [d|] eqn:Hd; [|discriminate].
    injection H as <-.
    specialize (IH a Hb eq_refl).
    assert (0 <= d < b) by (eapply digit_val_bound; eauto).
    rewrite length_app, Nat2Z.inj_add, Z.pow_add_r by lia. simpl (Z.of_nat (List.length [c])).
    rewrite Z.pow_1_r. nia.
Qed.

Lemma is_hex_digit : forall c, is_hex c = true -> exists d, digit_val 16 c = Some d.
Proof. intros c H; unfold is_hex in H; destruct (digit_val 16 c); [eauto|discriminate]. Qed.

Lemma digits_value_hex_some : forall l, forallb is_hex l = true ->
  exists v, digits_value 16 l = Some v.
Proof.
  intros l. induction l as [|c l IH] using rev_ind; intros H.
  - exists 0; reflexivity.
  - rewrite forallb_app in H. apply andb_true_iff in H as [H1 H2].
    destruct (IH H1) as [a Ha]. simpl in H2. rewrite andb_true_r in H2.
    destruct (is_hex_digit c H2) as [d Hd].
    exists (a * 16 + d). rewrite digits_value_app, Ha. simpl. unfold digits_step. rewrite Hd. reflexivity.
Qed.

(** * Lemmas on the abi coder model *)

#[global] Arguments hex_fixed : simpl never.

Lemma pow16_64 : 16 ^ Z.of_nat 64 = 2 ^ 256.
Proof. reflexivity. Qed.

Lemma word_at_mid : forall pre w post, List.length w = 64%nat ->
  word_at (pre ++ w ++ post) (List.length pre) = digits_value 16 w.
Proof.
  intros pre w post Hw. unfold word_at.
  rewrite !length_app, Hw.
  destruct (Nat.leb_spec (List.length pre + 64) (List.length pre + (64 + List.length post)))
    as [_|H]; [|lia].
  rewrite <- (Nat.add_0_r (List.length pre)) at 1.
  rewrite skipn_length_app. cbn [skipn]. rewrite <- Hw, firstn_length_app. reflexivity.
Qed.

Lemma arrayify_hex_fixed : forall k x, 0 <= x < 16 ^ Z.of_nat (2 * k) ->
  arrayify (lit "0x" ++ hex_fixed (2 * k) x) = Some (k, x).
Proof.
  intros k x Hx. unfold arrayify. cbn -[hex_fixed forallb Nat.even digits_value Nat.mul].
  rewrite hex_fixed_is_hex, hex_fixed_length, Nat.even_mul. cbn [Nat.even orb andb].
  rewrite digits_value_hex_fixed, Z.mod_small by lia.
  rewrite Nat.div2_double. reflexivity.
Qed.

Lemma arrayify_bytes32_hex : forall x, 0 <= x < 2 ^ 256 ->
  arrayify (bytes32_hex x) = Some (32%nat, x).
Proof.
  intros x Hx. apply (arrayify_hex_fixed 32). exact Hx.
Qed.

Lemma arrayify_spec : forall s k v, arrayify s = Some (k, v) ->
  0 <= v < 16 ^ Z.of_nat (2 * k).
Proof.
  intros s k v H. unfold arrayify in H.
  destruct (starts_with_0x s); [|discriminate].
  set (h := skipn 2 s) in H.
  destruct (forallb is_hex h && Nat.even (List.length h)) eqn:E; [|discriminate].
  apply andb_true_iff in E as [_ E].
  destruct (digits_value 16 h) as [v'|] eqn:Hv; [|discriminate].
  injection H as <- <-.
  apply Nat.even_spec in E as [m Hm].
  rewrite Hm, Nat.div2_double, <- Hm.
  apply (digits_value_bound 16 h); [lia|exact Hv].
Qed.

Lemma static_word_spec : forall t a w, valid_type t -> static_word t a = Some w ->
  List.length w = 64%nat /\ forallb is_hex w = true /\
  forall pre post i, List.length pre = (64 * i)%nat ->
    decode_one (pre ++ w ++ post) t i = Some (static_decoded t a).
Proof.
  intros t a w Ht H.
  assert (Hw : exists x, w = hex_fixed 64 x /\ 0 <= x < 2 ^ 256 /\
     forall pre post i, List.length pre = (64 * i)%nat ->
       decode_one (pre ++ w ++ post) t i = Some (static_decoded t a)).
  { destruct t, a; cbn [static_word] in H; try discriminate; cbn [valid_type] in Ht.
    - destruct ((0 <=? v) && (v <? 2 ^ bits)) eqn:E; [|discriminate].
      injection H as <-. apply andb_true_iff in E as [E1 E2].
      apply Z.leb_le in E1. apply Z.ltb_lt in E2.
      assert (v < 2 ^ 256) by (eapply Z.lt_le_trans; [exact E2|apply Z.pow_le_mono_r; lia]).
      exists v; split; [reflexivity|split; [lia|]].
      intros pre post i Hp. unfold decode_one. rewrite <- Hp, word_at_mid by apply hex_fixed_length.
      rewrite digits_value_hex_fixed, pow16_64, Z.mod_small by lia.
      cbn [option_map static_decoded]. rewrite Z.mod_small by lia. reflexivity.
    - destruct ((0 <=? a) && (a <? 2 ^ 160)) eqn:E; [|discriminate].
      injection H as <-. apply andb_true_iff in E as [E1 E2].
      apply Z.leb_le in E1. apply Z.ltb_lt in E2.
      exists a; split; [reflexivity|split; [lia|]].
      intros pre post i Hp. unfold decode_one. rewrite <- Hp, word_at_mid by apply hex_fixed_length.
      rewrite digits_value_hex_fixed, pow16_64, Z.mod_small by lia.
      destruct (Z.ltb_spec a (2 ^ 160)); [reflexivity|lia].
    - injection H as <-. exists (if b then 1 else 0).
      split; [reflexivity|split; [destruct b; lia|]].
      intros pre post i Hp. unfold decode_one. rewrite <- Hp, word_at_mid by apply hex_fixed_length.
      rewrite digits_value_hex_fixed, pow16_64, Z.mod_small by (destruct b; lia).
      destruct b; reflexivity.
    - destruct (arrayify s) as [[k v]|] eqn:E; [|discriminate].
      destruct k as [|[|[|[|[|[|[|[|[|[|[|[|[|[|[|[|[|[|[|[|[|[|[|[|[|[|[|[|[|[|[|[|[|]]]]]]]]]]]]]]]]]]]]]]]]]]]]]]]]];
        try discriminate.
      injection H as <-. apply arrayify_spec in E as Hb.
      exists v; split; [reflexivity|split; [rewrite <- pow16_64; exact Hb|]].
      intros pre post i Hp. unfold decode_one. rewrite <- Hp, word_at_mid by apply hex_fixed_length.
      rewrite digits_value_hex_fixed, Z.mod_small by (try exact Hb; lia).
      cbn [static_decoded]. rewrite E. reflexivity. }
  destruct Hw as (x & -> & Hx & Hd).
  split; [apply hex_fixed_length|split; [apply hex_fixed_is_hex|exact Hd]].
Qed.

Lemma enc_parts_cons_static : forall t a rest off, t <> TBytes ->
  enc_parts ((t, a) :: rest) off =
  match static_word t a, enc_parts rest off with
  | Some w, Some (h, tl) => Some (w ++ h, tl)
  | _, _ => None
  end.
Proof. intros t a rest off Ht; destruct t; try reflexivity; contradiction. Qed.

Lemma enc_parts_static : forall L off h tl,
  (forall p, In p L -> valid_type (fst p)) ->
  enc_parts L off = Some (h, tl) ->
  tl = [] /\ List.length h = (64 * List.length L)%nat /\ forallb is_hex h = true /\
  forall pre post i, List.length pre = (64 * i)%nat ->
    decode_all (pre ++ h ++ post) (map fst L) i =
    Some (map (fun p => static_decoded (fst p) (snd p)) L).
Proof.
  induction L as [|[t a] rest IH]; intros off h tl Hv He.
  - injection He as <- <-. repeat split; reflexivity.
  - assert (Ht : valid_type t) by exact (Hv (t, a) (or_introl eq_refl)).
    assert (Htb : t <> TBytes) by (intros ->; exact Ht).
    rewrite enc_parts_cons_static in He by exact Htb.
    destruct (static_word t a) as [w|] eqn:Hw; [|discriminate].
    destruct (enc_parts rest off) as [[h' tl']|] eqn:Hr; [|discriminate].
    injection He as <- <-.
    destruct (static_word_spec t a w Ht Hw) as (Hlw & Hhw & Hdw).
    destruct (IH off h' tl' (fun p Hp => Hv p (or_intror Hp)) Hr) as (-> & Hlh & Hhh & Hdh).
    split; [reflexivity|split; [|split]].
    + rewrite length_app, Hlw, Hlh. simpl. lia.
    + rewrite forallb_app, Hhw, Hhh. reflexivity.
    + intros pre post i Hp. cbn [map fst snd decode_all].
      rewrite <- app_assoc, Hdw by exact Hp.
      rewrite app_assoc, (Hdh (pre ++ w) post (S i)) by (rewrite length_app; lia).
      reflexivity.
Qed.

Lemma map_fst_combine : forall {A B} (l : list A) (m : list B),
  List.length l = List.length m -> map fst (combine l m) = l.
Proof.
  induction l as [|x l IH]; intros m H; [reflexivity|].
  destruct m as [|y m]; [discriminate|]. simpl. rewrite IH by (simpl in H; lia). reflexivity.
Qed.

Lemma abi_roundtrip_static : forall tys args s,
  (forall t, In t tys -> valid_type t) ->
  abi_encode tys args = Ok s ->
  abi_decode tys s = Ok (map (fun p => static_decoded (fst p) (snd p)) (combine tys args)).
Proof.
  intros tys args s Hv He. unfold abi_encode in He.
  destruct (Nat.eqb_spec (List.length tys) (List.length args)) as [Hl|]; [|discriminate].
  destruct (enc_parts (combine tys args) _) as [[h tl]|] eqn:Hp; [|discriminate].
  injection He as <-.
  destruct (enc_parts_static (combine tys args) (32 * Z.of_nat (List.length tys)) h tl) as (-> & Hlh & Hhh & Hdh);
    [|exact Hp|].
  { intros [t a] Hin. apply Hv. apply in_combine_l in Hin. exact Hin. }
  unfold abi_decode. cbn [lit list_ascii_of_string app].
  rewrite app_nil_r, Hhh, Hlh, Nat.even_mul. cbn [Nat.even orb andb].
  specialize (Hdh [] [] 0%nat eq_refl). rewrite app_nil_r in Hdh. cbn [app] in Hdh.
  rewrite map_fst_combine in Hdh by exact Hl. rewrite Hdh. reflexivity.
Qed.

Lemma abi_encode_static_length : forall tys args s,
  (forall t, In t tys -> valid_type t) ->
  abi_encode tys args = Ok s -> List.length s = (2 + 64 * List.length tys)%nat.
Proof.
  intros tys args s Hv He. unfold abi_encode in He.
  destruct (Nat.eqb_spec (List.length tys) (List.length args)) as [Hl|]; [|discriminate].
  destruct (enc_parts (combine tys args) _) as [[h tl]|] eqn:Hp; [|discriminate].
  injection He as <-.
  destruct (enc_parts_static (combine tys args) (32 * Z.of_nat (List.length tys)) h tl) as (-> & Hlh & _);
    [|exact Hp|].
  { intros [t a] Hin. apply Hv. apply in_combine_l in Hin. exact Hin. }
  rewrite length_combine, Hl, Nat.min_id in Hlh.
  cbn [lit list_ascii_of_string app List.length]. rewrite app_nil_r, Hlh, Hl. reflexivity.
Qed.

(** * Lemmas on the codec *)

Lemma vs_mask_ones : vs_mask = Z.ones 255.
Proof. reflexivity. Qed.

Lemma permit2_max_eq : permit2_max = 2 ^ 48 - 1.
Proof. reflexivity. Qed.


Lemma land_mask_bound : forall x, 0 <= Z.land x vs_mask < 2 ^ 256.
Proof.
  intros x. rewrite vs_mask_ones, Z.land_ones by lia.
  pose proof (Z.mod_pos_bound x (2 ^ 255) ltac:(lia)). lia.
Qed.

Lemma js_slice_prefix : forall (x q : jstr) b, b = List.length x -> js_slice 0 b (x ++ q) = x.
Proof. intros x q b ->. apply (js_slice_mid [] x q); reflexivity. Qed.

Ltac len_solve := rewrite ?length_app, ?hex_fixed_length; reflexivity.

(** The EIP-2612 branch of decompressPermit on a well-formed 202-long input. *)
Lemma decompress_202 : forall a d r vs token owner spender,
  0 <= a < 2 ^ 256 -> 0 <= d < 2 ^ 32 -> 0 <= r < 2 ^ 256 -> 0 <= vs < 2 ^ 256 ->
  decompressPermit (lit "0x" ++ hex_fixed 64 a ++ hex_fixed 8 d ++ hex_fixed 64 r ++ hex_fixed 64 vs)
    token owner spender =
  abi_encode eip2612_types
    [AAddress owner; AAddress spender; AUint a;
     AUint (if d =? 0 then MaxUint256 else d - 1);
     AUint (Z.shiftr vs 255 + 27);
     ABytes32 (bytes32_hex r);
     ABytes32 (bytes32_hex (Z.land vs vs_mask))].
Proof.
  intros a d r vs token owner spender Ha Hd Hr Hvs.
  set (S := lit "0x" ++ hex_fixed 64 a ++ hex_fixed 8 d ++ hex_fixed 64 r ++ hex_fixed 64 vs).
  assert (HL : List.length S = 202%nat) by (unfold S; len_solve).
  assert (E1 : js_slice 0 66 S = lit "0x" ++ hex_fixed 64 a).
  { assert (S = (lit "0x" ++ hex_fixed 64 a) ++ hex_fixed 8 d ++ hex_fixed 64 r ++ hex_fixed 64 vs)
      as -> by (unfold S; rewrite <- !app_assoc; reflexivity).
    apply js_slice_prefix. len_solve. }
  assert (E2 : js_slice 66 74 S = hex_fixed 8 d).
  { assert (S = (lit "0x" ++ hex_fixed 64 a) ++ hex_fixed 8 d ++ hex_fixed 64 r ++ hex_fixed 64 vs)
      as -> by (unfold S; rewrite <- !app_assoc; reflexivity).
    apply js_slice_mid; len_solve. }
  assert (E3 : js_slice 74 138 S = hex_fixed 64 r).
  { assert (S = (lit "0x" ++ hex_fixed 64 a ++ hex_fixed 8 d) ++ hex_fixed 64 r ++ hex_fixed 64 vs)
      as -> by (unfold S; rewrite <- !app_assoc; reflexivity).
    apply js_slice_mid; len_solve. }
  assert (E4 : js_slice 138 202 S = hex_fixed 64 vs).
  { assert (S = (lit "0x" ++ hex_fixed 64 a ++ hex_fixed 8 d ++ hex_fixed 64 r) ++ hex_fixed 64 vs ++ [])
      as -> by (unfold S; rewrite <- !app_assoc, app_nil_r; reflexivity).
    apply js_slice_mid; len_solve. }
  unfold decompressPermit. rewrite HL. cbn [Nat.eqb].
  rewrite E1, E2, E3, E4.
  rewrite (BigInt_hex_fixed 64 a), (BigInt_hex_fixed 8 d), (BigInt_hex_fixed 64 vs)
    by (try rewrite pow16_64; cbn -[Z.pow]; lia).
  cbn [bind].
  rewrite (hexpad_fixed 64 (Z.land vs vs_mask))
    by (try lia; rewrite pow16_64; apply land_mask_bound).
  reflexivity.
Qed.

(** The DAI branch of decompressPermit on a well-formed 146-long input. *)
Lemma decompress_146 : forall n d r vs token owner spender,
  0 <= n < 2 ^ 32 -> 0 <= d < 2 ^ 32 -> 0 <= r < 2 ^ 256 -> 0 <= vs < 2 ^ 256 ->
  decompressPermit (lit "0x" ++ hex_fixed 8 n ++ hex_fixed 8 d ++ hex_fixed 64 r ++ hex_fixed 64 vs)
    token owner spender =
  abi_encode dai_types
    [AAddress owner; AAddress spender; AUint n;
     AUint (if d =? 0 then MaxUint256 else d - 1);
     ABool true;
     AUint (Z.shiftr vs 255 + 27);
     ABytes32 (bytes32_hex r);
     ABytes32 (bytes32_hex (Z.land vs vs_mask))].
Proof.
  intros n d r vs token owner spender Hn Hd Hr Hvs.
  set (S := lit "0x" ++ hex_fixed 8 n ++ hex_fixed 8 d ++ hex_fixed 64 r ++ hex_fixed 64 vs).
  assert (HL : List.length S = 146%nat) by (unfold S; len_solve).
  assert (E1 : js_slice 0 10 S = lit "0x" ++ hex_fixed 8 n).
  { assert (S = (lit "0x" ++ hex_fixed 8 n) ++ hex_fixed 8 d ++ hex_fixed 64 r ++ hex_fixed 64 vs)
      as -> by (unfold S; rewrite <- !app_assoc; reflexivity).
    apply js_slice_prefix. len_solve. }
  assert (E2 : js_slice 10 18 S = hex_fixed 8 d).
  { assert (S = (lit "0x" ++ hex_fixed 8 n) ++ hex_fixed 8 d ++ hex_fixed 64 r ++ hex_fixed 64 vs)
      as -> by (unfold S; rewrite <- !app_assoc; reflexivity).
    apply js_slice_mid; len_solve. }
  assert (E3 : js_slice 18 82 S = hex_fixed 64 r).
  { assert (S = (lit "0x" ++ hex_fixed 8 n ++ hex_fixed 8 d) ++ hex_fixed 64 r ++ hex_fixed 64 vs)
      as -> by (unfold S; rewrite <- !app_assoc; reflexivity).
    apply js_slice_mid; len_solve. }
  assert (E4 : js_slice 82 146 S = hex_fixed 64 vs).
  { assert (S = (lit "0x" ++ hex_fixed 8 n ++ hex_fixed 8 d ++ hex_fixed 64 r) ++ hex_fixed 64 vs ++ [])
      as -> by (unfold S; rewrite <- !app_assoc, app_nil_r; reflexivity).
    apply js_slice_mid; len_solve. }
  unfold decompressPermit. rewrite HL. cbn [Nat.eqb].
  rewrite E1, E2, E3, E4.
  rewrite (BigInt_hex_fixed 8 n), (BigInt_hex_fixed 8 d), (BigInt_hex_fixed 64 vs)
    by (try rewrite pow16_64; cbn -[Z.pow]; lia).
  cbn [bind].
  rewrite (hexpad_fixed 64 (Z.land vs vs_mask))
    by (try lia; rewrite pow16_64; apply land_mask_bound).
  reflexivity.
Qed.

(** The Permit2 branch of decompressPermit on a well-formed 194-long input;
    the signature is carried as its two 32-byte halves [h] and [l]. *)
Lemma decompress_194 : forall a e n sd h l token owner spender,
  0 <= a < 2 ^ 160 -> 0 <= e < 2 ^ 32 -> 0 <= n < 2 ^ 32 -> 0 <= sd < 2 ^ 32 ->
  decompressPermit (lit "0x" ++ hex_fixed 40 a ++ hex_fixed 8 e ++ hex_fixed 8 n ++
                    hex_fixed 8 sd ++ hex_fixed 64 h ++ hex_fixed 64 l)
    token owner spender =
  abi_encode permit2_types
    [AAddress owner; AAddress token; AUint a;
     AUint (if e =? 0 then permit2_max else e - 1);
     AUint n;
     AAddress spender;
     AUint (if sd =? 0 then permit2_max else sd - 1);
     ABytesDyn (lit "0x" ++ hex_fixed 64 h ++ hex_fixed 64 l)].
Proof.
  intros a e n sd h l token owner spender Ha He Hn Hsd.
  set (S := lit "0x" ++ hex_fixed 40 a ++ hex_fixed 8 e ++ hex_fixed 8 n ++
            hex_fixed 8 sd ++ hex_fixed 64 h ++ hex_fixed 64 l).
  assert (HL : List.length S = 194%nat) by (unfold S; len_solve).
  assert (E1 : js_slice 0 42 S = lit "0x" ++ hex_fixed 40 a).
  { assert (S = (lit "0x" ++ hex_fixed 40 a) ++ hex_fixed 8 e ++ hex_fixed 8 n ++
                hex_fixed 8 sd ++ hex_fixed 64 h ++ hex_fixed 64 l)
      as -> by (unfold S; rewrite <- !app_assoc; reflexivity).
    apply js_slice_prefix. len_solve. }
  assert (E2 : js_slice 42 50 S = hex_fixed 8 e).
  { assert (S = (lit "0x" ++ hex_fixed 40 a) ++ hex_fixed 8 e ++ (hex_fixed 8 n ++
                hex_fixed 8 sd ++ hex_fixed 64 h ++ hex_fixed 64 l))
      as -> by (unfold S; rewrite <- !app_assoc; reflexivity).
    apply js_slice_mid; len_solve. }
  assert (E3 : js_slice 50 58 S = hex_fixed 8 n).
  { assert (S = (lit "0x" ++ hex_fixed 40 a ++ hex_fixed 8 e) ++ hex_fixed 8 n ++
                (hex_fixed 8 sd ++ hex_fixed 64 h ++ hex_fixed 64 l))
      as -> by (unfold S; rewrite <- !app_assoc; reflexivity).
    apply js_slice_mid; len_solve. }
  assert (E4 : js_slice 58 66 S = hex_fixed 8 sd).
  { assert (S = (lit "0x" ++ hex_fixed 40 a ++ hex_fixed 8 e ++ hex_fixed 8 n) ++
                hex_fixed 8 sd ++ (hex_fixed 64 h ++ hex_fixed 64 l))
      as -> by (unfold S; rewrite <- !app_assoc; reflexivity).
    apply js_slice_mid; len_solve. }
  assert (E5 : js_slice 66 130 S = hex_fixed 64 h).
  { assert (S = (lit "0x" ++ hex_fixed 40 a ++ hex_fixed 8 e ++ hex_fixed 8 n ++ hex_fixed 8 sd) ++
                hex_fixed 64 h ++ hex_fixed 64 l)
      as -> by (unfold S; rewrite <- !app_assoc; reflexivity).
    apply js_slice_mid; len_solve. }
  assert (E6 : js_slice 130 194 S = hex_fixed 64 l).
  { assert (S = (lit "0x" ++ hex_fixed 40 a ++ hex_fixed 8 e ++ hex_fixed 8 n ++ hex_fixed 8 sd ++
                 hex_fixed 64 h) ++ hex_fixed 64 l ++ [])
      as -> by (unfold S; rewrite <- !app_assoc, app_nil_r; reflexivity).
    apply js_slice_mid; len_solve. }
  unfold decompressPermit. rewrite HL. cbn [Nat.eqb].
  rewrite E1, E2, E3, E4, E5, E6.
  rewrite (BigInt_hex_fixed 40 a), (BigInt_hex_fixed 8 e), (BigInt_hex_fixed 8 n),
    (BigInt_hex_fixed 8 sd) by (cbn -[Z.pow]; lia).
  cbn [bind]. reflexivity.
Qed.

Ltac range_true :=
  repeat match goal with
  | |- context [(0 <=? ?x) && (?x <? ?b)] =>
      replace ((0 <=? x) && (x <? b)) with true
        by (symmetry; apply andb_true_iff; split; [apply Z.leb_le|apply Z.ltb_lt]; lia)
  end.

Lemma encode_eip2612 : forall e, fits_compressed (Eip2612 e) ->
  encodePermit (Eip2612 e) =
  Ok (lit "0x" ++ hex_fixed 64 (e_owner e) ++ hex_fixed 64 (e_spender e) ++
      hex_fixed 64 (e_value e) ++ hex_fixed 64 (e_deadline e) ++ hex_fixed 64 (e_v e) ++
      hex_fixed 64 (e_r e) ++ hex_fixed 64 (e_s e)).
Proof.
  intros e (Ho & Hs & Hv & Hd & Hvv & Hr & Hss).
  unfold encodePermit, abi_encode. cbn [List.length Nat.eqb eip2612_types combine enc_parts static_word].
  rewrite !arrayify_bytes32_hex by lia.
  unfold is_address, fits_slot, MaxUint256 in *.
  range_true.
  cbn.
  rewrite !app_nil_r. reflexivity.
Qed.

Lemma valid_eip2612 : forall t, In t eip2612_types -> valid_type t.
Proof. intros t Ht; repeat destruct Ht as [<-|Ht]; cbn; try exact I; try lia; contradiction. Qed.



Lemma encode_dai : forall d, fits_compressed (Dai d) ->
  encodePermit (Dai d) =
  Ok (lit "0x" ++ hex_fixed 64 (d_holder d) ++ hex_fixed 64 (d_spender d) ++
      hex_fixed 64 (d_nonce d) ++ hex_fixed 64 (d_expiry d) ++
      hex_fixed 64 (if d_allowed d then 1 else 0) ++ hex_fixed 64 (d_v d) ++
      hex_fixed 64 (d_r d) ++ hex_fixed 64 (d_s d)).
Proof.
  intros d (Ho & Hs & Hn & Hd & Hvv & Hr & Hss).
  unfold encodePermit, abi_encode.
  cbn [List.length Nat.eqb dai_types combine enc_parts static_word].
  rewrite !arrayify_bytes32_hex by lia.
  unfold is_address, fits_slot, MaxUint256 in *.
  range_true. cbn. rewrite !app_nil_r. reflexivity.
Qed.

Lemma valid_dai : forall t, In t dai_types -> valid_type t.
Proof. intros t Ht; repeat destruct Ht as [<-|Ht]; cbn; try exact I; try lia; contradiction. Qed.

(** On every EIP-2612 call the abi coder accepts, compressPermit stops at
    [args.value.toString(16)]. *)
Lemma compress_eip2612_throws : forall o sp value dl v r s d,
  abi_encode eip2612_types
    [AAddress o; AAddress sp; AUint value; AUint dl; AUint v; ABytes32 r; ABytes32 s] = Ok d ->
  compressPermit d = Err UnexpectedArgument.
Proof.
  intros o sp value dl v r s d HE.
  pose proof (abi_encode_static_length _ _ _ valid_eip2612 HE) as HL. cbn in HL.
  unfold compressPermit. rewrite HL. cbn [Nat.eqb].
  rewrite (abi_roundtrip_static _ _ _ valid_eip2612 HE).
  cbn [eip2612_types combine map fst snd static_decoded bind].
  destruct (arrayify r) as [[? ?]|]; destruct (arrayify s) as [[? ?]|]; reflexivity.
Qed.

(** The same for DAI calls, at [args.nonce.toString(16)]. *)
Lemma compress_dai_throws : forall o sp nonce ex al v r s d,
  abi_encode dai_types
    [AAddress o; AAddress sp; AUint nonce; AUint ex; ABool al; AUint v; ABytes32 r; ABytes32 s] =
  Ok d ->
  compressPermit d = Err UnexpectedArgument.
Proof.
  intros o sp nonce ex al v r s d HE.
  pose proof (abi_encode_static_length _ _ _ valid_dai HE) as HL. cbn in HL.
  unfold compressPermit. rewrite HL. cbn [Nat.eqb].
  rewrite (abi_roundtrip_static _ _ _ valid_dai HE).
  cbn [dai_types combine map fst snd static_decoded bind].
  destruct (arrayify r) as [[? ?]|]; destruct (arrayify s) as [[? ?]|]; reflexivity.
Qed.


Lemma words_cons : forall x ws, words (x :: ws) = hex_fixed 64 x ++ words ws.
Proof. reflexivity. Qed.

Lemma words_length : forall ws, List.length (words ws) = (64 * List.length ws)%nat.
Proof.
  induction ws as [|x ws IH]; [reflexivity|].
  rewrite words_cons, length_app, hex_fixed_length, IH. cbn [List.length]. lia.
Qed.

Lemma words_is_hex : forall ws, forallb is_hex (words ws) = true.
Proof.
  induction ws as [|x ws IH]; [reflexivity|].
  rewrite words_cons, forallb_app, hex_fixed_is_hex, IH. reflexivity.
Qed.

Lemma word_at_shift : forall w r k, List.length w = 64%nat ->
  word_at (w ++ r) (64 + k) = word_at r k.
Proof.
  intros w r k Hw. unfold word_at. rewrite length_app, Hw, skipn_app.
  rewrite (skipn_all2 w) by lia. rewrite Hw. replace (64 + k - 64)%nat with k by lia.
  cbn [app].
  destruct (Nat.leb_spec (64 + k + 64) (64 + List.length r)),
           (Nat.leb_spec (k + 64) (List.length r)); try reflexivity; lia.
Qed.

Lemma word_at_words : forall ws post i k x, k = (64 * i)%nat -> nth_error ws i = Some x ->
  0 <= x < 2 ^ 256 -> word_at (words ws ++ post) k = Some x.
Proof.
  induction ws as [|y ws IH]; intros post i k x Hk Hn Hx; [destruct i; discriminate|].
  rewrite words_cons, <- app_assoc. destruct i as [|i].
  - cbn in Hn. injection Hn as ->. subst k.
    rewrite <- (app_nil_l (hex_fixed 64 x ++ _)).
    rewrite (word_at_mid [] (hex_fixed 64 x)) by apply hex_fixed_length.
    rewrite digits_value_hex_fixed, pow16_64, Z.mod_small by lia. reflexivity.
  - cbn in Hn. subst k. replace (64 * S i)%nat with (64 + 64 * i)%nat by lia.
    rewrite word_at_shift by apply hex_fixed_length.
    exact (IH post i _ x eq_refl Hn Hx).
Qed.

Lemma zero_pad_right_64 : zero_pad_right 64 = [].
Proof. reflexivity. Qed.

Lemma encode_permit2 : forall q, fits_compressed (Permit2 q) ->
  encodePermit (Permit2 q) =
  Ok (lit "0x" ++ words [q_owner q; q_token q; q_amount q; q_expiration q; q_nonce q;
                         q_spender q; q_sigDeadline q; 256; 64] ++ hex_fixed 128 (q_signature q)).
Proof.
  intros q (Ho & Ht & Hs & Ha & He & Hn & Hd & Hg).
  unfold encodePermit, abi_encode.
  pose proof (arrayify_hex_fixed 64 (q_signature q)) as Har. cbn [Nat.mul Nat.add] in Har.
  cbn [List.length Nat.eqb permit2_types combine enc_parts static_word].
  rewrite Har by (cbn -[Z.pow]; lia).
  unfold is_address, fits_slot in *. rewrite permit2_max_eq in *.
  range_true. rewrite zero_pad_right_64.
  unfold words. cbn [map List.concat]. rewrite !app_nil_r, <- !app_assoc. reflexivity.
Qed.

Lemma decode_permit2 : forall o t a e n sp sd g,
  0 <= o < 2 ^ 160 -> 0 <= t < 2 ^ 160 -> 0 <= a < 2 ^ 160 -> 0 <= e < 2 ^ 48 ->
  0 <= n < 2 ^ 48 -> 0 <= sp < 2 ^ 160 -> 0 <= sd < 2 ^ 256 -> 0 <= g < 2 ^ 512 ->
  abi_decode permit2_types (lit "0x" ++ words [o; t; a; e; n; sp; sd; 256; 64] ++ hex_fixed 128 g) =
  Ok [VAddress o; VAddress t; VBigNumber a; VNumber e; VNumber n; VAddress sp; VBigNumber sd;
      VBytes (lit "0x" ++ hex_fixed 128 g)].
Proof.
  intros o t a e n sp sd g Ho Ht Ha He Hn Hsp Hsd Hg.
  set (W := [o; t; a; e; n; sp; sd; 256; 64]).
  set (D := words W ++ hex_fixed 128 g).
  assert (HD : List.length D = 704%nat)
    by (unfold D; rewrite length_app, words_length, hex_fixed_length; reflexivity).
  assert (Hh : forallb is_hex D = true)
    by (unfold D; rewrite forallb_app, words_is_hex, hex_fixed_is_hex; reflexivity).
  unfold abi_decode. cbn [lit list_ascii_of_string app].
  rewrite Hh, HD. cbn [Nat.even andb].
  cbn [decode_all decode_one permit2_types].
  unfold D.
  rewrite (word_at_words W _ 0 _ o eq_refl eq_refl), (word_at_words W _ 1 _ t eq_refl eq_refl),
    (word_at_words W _ 2 _ a eq_refl eq_refl), (word_at_words W _ 3 _ e eq_refl eq_refl),
    (word_at_words W _ 4 _ n eq_refl eq_refl), (word_at_words W _ 5 _ sp eq_refl eq_refl),
    (word_at_words W _ 6 _ sd eq_refl eq_refl), (word_at_words W _ 7 _ 256 eq_refl eq_refl)
    by lia.
  repeat match goal with |- context [?x <? ?b] =>
    replace (x <? b) with true by (symmetry; apply Z.ltb_lt; lia) end.
  cbn [option_map].
  rewrite (Z.mod_small a), (Z.mod_small e), (Z.mod_small n), (Z.mod_small sd) by lia.
  replace (2 * Z.to_nat 256)%nat with (64 * 8)%nat by reflexivity.
  rewrite (word_at_words W _ 8 _ 64 eq_refl eq_refl) by lia.
  replace (64 <? 2 ^ 53) with true by reflexivity.
  change (words W ++ hex_fixed 128 g) with D. rewrite HD.
  match goal with |- context [Nat.leb ?x 704] => replace (Nat.leb x 704) with true by reflexivity end.
  unfold D. replace (2 * Z.to_nat 64)%nat with 128%nat by reflexivity.
  replace (64 * 8 + 64)%nat with (List.length (words W) + 0)%nat
    by (rewrite words_length; reflexivity).
  rewrite skipn_length_app. cbn [skipn].
  rewrite firstn_all2 by (rewrite hex_fixed_length; lia).
  rewrite digits_value_hex_fixed by lia.
  replace (16 ^ Z.of_nat 128) with (2 ^ 512) by reflexivity.
  rewrite Z.mod_small by lia. reflexivity.
Qed.

Lemma slot_bound : forall max x, 0 <= max -> fits_slot max x -> 0 <= x <= max \/ 0 <= x < 2 ^ 32 - 1.
Proof. intros max x Hm [->|Hx]; [left|right]; lia. Qed.

Lemma compress_permit2 : forall q, fits_compressed (Permit2 q) ->
  exists s, encodePermit (Permit2 q) = Ok s /\ compressPermit s = Err UnexpectedArgument.
Proof.
  intros q Hf. pose proof (encode_permit2 q Hf) as HE.
  eexists; split; [exact HE|].
  destruct Hf as (Ho & Ht & Hs & Ha & He & Hn & Hd & Hg).
  assert (Hpm : 0 <= permit2_max) by (rewrite permit2_max_eq; lia).
  pose proof (slot_bound _ _ Hpm He) as He'.
  pose proof (slot_bound _ _ Hpm Hd) as Hd'.
  rewrite permit2_max_eq in He', Hd'. unfold is_address in *.
  match goal with |- compressPermit ?s = _ =>
    assert (HL : List.length s = 706%nat)
      by (rewrite length_app, length_app, words_length, hex_fixed_length; reflexivity);
    set (S := s) in * end.
  unfold compressPermit. rewrite HL. cbn [Nat.eqb].
  unfold S. rewrite decode_permit2 by lia. reflexivity.
Qed.


Lemma encode_ok : forall p, fits_compressed p -> exists s, encodePermit p = Ok s.
Proof.
  intros [e|d|q] Hf; eexists.
  - exact (encode_eip2612 e Hf).
  - exact (encode_dai d Hf).
  - exact (encode_permit2 q Hf).
Qed.

Lemma compress_throws : forall p, fits_compressed p ->
  exists s, encodePermit p = Ok s /\ compressPermit s = Err UnexpectedArgument.
Proof.
  intros p Hf. destruct (encode_ok p Hf) as [s Hs]. destruct p as [e|d|q].
  - exists s. split; [exact Hs|]. exact (compress_eip2612_throws _ _ _ _ _ _ _ _ Hs).
  - exists s. split; [exact Hs|]. exact (compress_dai_throws _ _ _ _ _ _ _ _ _ Hs).
  - exact (compress_permit2 q Hf).
Qed.

Lemma fits_e2612_ex : fits_compressed (Eip2612 e2612_ex).
Proof. cbn. unfold fits_slot, is_address. vm_compute. intuition discriminate. Qed.
(** * Lemmas on buildBySigTraits and useTokenDetails *)

Lemma traits_fields : forall nt dl m n,
  0 <= nt <= 3 -> 0 <= dl < 2 ^ 40 -> 0 <= m < 2 ^ 80 -> 0 <= n < 2 ^ 128 ->
  let t := nt * 2 ^ 254 + dl * 2 ^ 208 + m * 2 ^ 128 + n in
  0 <= t < 2 ^ 256 /\ Z.shiftr t 254 = nt /\ Z.shiftr t 208 mod 2 ^ 40 = dl /\
  Z.shiftr t 128 mod 2 ^ 80 = m /\ t mod 2 ^ 128 = n.
Proof.
  intros nt dl m n Hnt Hdl Hm Hn t.
  rewrite !Z.shiftr_div_pow2 by lia.
  assert (E254 : 2 ^ 254 = 2 ^ 46 * 2 ^ 208) by (rewrite <- Z.pow_add_r; lia).
  assert (E208 : 2 ^ 208 = 2 ^ 80 * 2 ^ 128) by (rewrite <- Z.pow_add_r; lia).
  assert (E256 : 2 ^ 256 = 2 ^ 2 * 2 ^ 254) by (rewrite <- Z.pow_add_r; lia).
  assert (E46 : 2 ^ 46 = 2 ^ 6 * 2 ^ 40) by (rewrite <- Z.pow_add_r; lia).
  set (B := 2 ^ 128) in *. set (A := 2 ^ 208) in *.
  assert (HB : 0 < B) by (unfold B; lia).
  assert (Ht1 : t = ((nt * 2 ^ 46 + dl) * 2 ^ 80 + m) * B + n) by (unfold t; rewrite E254, E208; ring).
  assert (Ht2 : t = (nt * 2 ^ 46 + dl) * A + (m * B + n)) by (unfold t; rewrite E254; ring).
  assert (HR : 0 <= m * B + n < A) by (rewrite E208; nia).
  split; [|split; [|split; [|split]]].
  - rewrite E256, E254. unfold t. rewrite E254. nia.
  - assert (Ht3 : t = nt * 2 ^ 254 + (dl * A + m * B + n)) by (unfold t; ring).
    rewrite Ht3, Z.div_add_l by lia. rewrite (Z.div_small (dl * A + m * B + n)); [lia|].
    rewrite E254. split; [nia|]. assert (dl * A + m * B + n < 2 ^ 40 * A) by (rewrite E208 in *; nia).
    nia.
  - rewrite Ht2, Z.div_add_l, (Z.div_small (m * B + n)), Z.add_0_r by lia.
    rewrite E46, (Z.add_comm _ dl), Z.mul_assoc, Z.mod_add by lia.
    apply Z.mod_small; lia.
  - rewrite Ht1, Z.div_add_l, (Z.div_small n), Z.add_0_r by lia.
    rewrite (Z.add_comm _ m), Z.mod_add by lia. apply Z.mod_small; lia.
  - rewrite Ht1, (Z.add_comm _ n), Z.mod_add by lia. apply Z.mod_small; lia.
Qed.

Lemma js_gt_int : forall z c, js_gt (js_int z) c = (z >? c).
Proof. intros z c. cbn. rewrite Z.mul_1_r, Z.gtb_ltb. reflexivity. Qed.

Lemma BigInt_of_int : forall z, BigInt_of_number (js_int z) = Ok z.
Proof. intros z. cbn. rewrite Z.mod_1_r, Z.div_1_r. reflexivity. Qed.

(** On integer arguments buildBySigTraits is the bigint computation. *)
Lemma buildBySigTraits_int : forall (nonceType deadline : Z) relayer (nonce : Z),
  buildBySigTraits nonceType deadline relayer nonce =
  if nonceType >? 3 then Err WrongNonceType
  else if deadline >? 1099511627775 then Err WrongDeadline
  else if (42 <? List.length relayer)%nat then Err WrongRelayer
  else if nonce >? 2 ^ 128 - 1 then Err WrongNonce
  else
    let* r := BigInt relayer in
    Ok (Z.shiftl nonceType 254 + Z.shiftl deadline 208 +
        Z.shiftl (Z.land r (2 ^ 80 - 1)) 128 + nonce).
Proof.
  intros nt dl rel n. unfold buildBySigTraits. rewrite !js_gt_int, !BigInt_of_int.
  cbn [bind]. destruct (BigInt rel); reflexivity.
Qed.

(** [x > c] on an integral number is the integer comparison. *)
Lemma js_gt_of_int : forall x z c, BigInt_of_number x = Ok z -> js_gt x c = (c <? z).
Proof.
  intros [n d| |] z c H; try discriminate. cbn in H |- *.
  destruct (Z.eqb_spec (n mod Zpos d) 0) as [Hm|]; [|discriminate].
  apply ok_inj in H. subst z.
  pose proof (Z.div_mod n (Zpos d) ltac:(lia)) as Hn. rewrite Hm, Z.add_0_r in Hn.
  set (q := n / Zpos d) in *.
  destruct (Z.ltb_spec (c * Zpos d) n), (Z.ltb_spec c q); try reflexivity; nia.
Qed.

Lemma buildBySigTraits_ok : forall nonceType deadline relayer r nonce,
  0 <= nonceType <= 3 -> 0 <= deadline < 2 ^ 40 -> (List.length relayer <= 42)%nat ->
  BigInt relayer = Ok r -> 0 <= nonce < 2 ^ 128 ->
  buildBySigTraits nonceType deadline relayer nonce =
  Ok (nonceType * 2 ^ 254 + deadline * 2 ^ 208 + (r mod 2 ^ 80) * 2 ^ 128 + nonce).
Proof.
  intros nonceType deadline relayer r nonce Hnt Hdl Hrl Hr Hn.
  rewrite buildBySigTraits_int.
  rewrite Z.gtb_ltb, (proj2 (Z.ltb_ge _ _)) by lia.
  rewrite Z.gtb_ltb, (proj2 (Z.ltb_ge _ _)) by lia.
  rewrite (proj2 (Nat.ltb_ge _ _)) by lia.
  rewrite Z.gtb_ltb, (proj2 (Z.ltb_ge _ _)) by lia.
  rewrite Hr. cbn [bind].
  replace (2 ^ 80 - 1) with (Z.ones 80) by reflexivity.
  rewrite Z.land_ones, !Z.shiftl_mul_pow2 by lia. reflexivity.
Qed.

Lemma js_not_coalesce_some : forall {A} (x : option A) d, js_not (js_coalesce x (Some d)) = false.
Proof. intros A [a|] d; reflexivity. Qed.

Lemma useTokenDetails_flags : forall cid tok,
  exists st, useTokenDetails networks cid tok = Ok st /\
    isUnsupportedNetwork st = false /\ isUnsupportedToken st = false.
Proof.
  intros cid tok. unfold useTokenDetails.
  remember (find (fun n => chainId n =? cid) networks) as fc eqn:Efc.
  simpl. destruct fc as [cn|]; cbn [js_coalesce].
  - eexists; split; [reflexivity|]. split; [reflexivity|apply js_not_coalesce_some].
  - eexists; split; [reflexivity|]. split; [reflexivity|apply js_not_coalesce_some].
Qed.

(** * Lemmas on useSubscriptionInfo *)

Lemma present_ge_spec : forall x y, present_ge x y = true <-> exists t, x = Some t /\ y <= t.
Proof.
  intros [t|] y; cbn.
  - rewrite Z.leb_le. split; [intros H; exists t; auto|intros (t' & E & H); injection E as <-; exact H].
  - split; [discriminate|intros (t' & E & _); discriminate].
Qed.

(** When no deposit is needed, the balance is present and covers the cost. *)
Lemma needsDeposit_present : forall pb c,
  negb (needsDeposit_of pb c) && present_ge pb c = negb (needsDeposit_of pb c).
Proof.
  intros [b|] c; cbn; [|reflexivity].
  destruct (Z.ltb_spec b c), (Z.leb_spec c b); cbn; reflexivity || lia.
Qed.

(** * Claims *)

(** C1 (code bug): for every payload of the three variants whose fields fit
    the compressed widths and all addresses, the encoding succeeds but
    compressPermit of it throws, and with it the round trip
    decompressPermit(compressPermit(p), token, owner, spender): ethers 5.7.1
    decodes the uint256 value (EIP-2612), the uint256 nonce (DAI) and the
    uint160 amount (Permit2) as BigNumber objects, and the first operand of
    each result, [toString(16)] on that BigNumber, throws
    UNEXPECTED_ARGUMENT. *)
Theorem roundtrip_compress_throws : forall p token owner spender,
  fits_compressed p ->
  exists full, encodePermit p = Ok full /\
    compressPermit full = Err UnexpectedArgument /\
    roundtrip p token owner spender = Err UnexpectedArgument.
Proof.
  intros p token owner spender Hf.
  destruct (compress_throws p Hf) as (full & He & Hc).
  exists full. split; [exact He|]. split; [exact Hc|].
  unfold roundtrip. rewrite He. cbn [bind]. rewrite Hc. reflexivity.
Qed.
Lemma roundtrip_compress_throws_witness :
  fits_compressed (Eip2612 e2612_ex) /\
  exists full, encodePermit (Eip2612 e2612_ex) = Ok full /\
    compressPermit full = Err UnexpectedArgument /\
    roundtrip (Eip2612 e2612_ex) 1 2 3 = Err UnexpectedArgument.
Proof.
  split; [exact fits_e2612_ex|].
  exact (roundtrip_compress_throws (Eip2612 e2612_ex) 1 2 3 fits_e2612_ex).
Defined.

(** C5: the length dispatch of the codec. compressPermit fails with
    InvalidPermitLength on every length outside {450, 514, 706, 202, 146, 194}
    and with AlreadyCompressed on 202, 146 and 194; decompressPermit fails with
    AlreadyDecompressed on 450, 514 and 706 and with InvalidPermitLength
    outside the six lengths. Both are pure functions of their arguments, and
    on these inputs the outcome depends on the length alone. *)
Theorem length_dispatch : forall (s : jstr) token owner spender,
  (~ In (List.length s) [450; 514; 706; 202; 146; 194]%nat ->
     compressPermit s = Err InvalidPermitLength /\
     decompressPermit s token owner spender = Err InvalidPermitLength) /\
  (In (List.length s) [202; 146; 194]%nat -> compressPermit s = Err AlreadyCompressed) /\
  (In (List.length s) [450; 514; 706]%nat ->
     decompressPermit s token owner spender = Err AlreadyDecompressed).
Proof.
  intros s token owner spender. unfold compressPermit, decompressPermit.
  set (n := List.length s). cbn [In].
  split; [|split]; intros H;
  repeat match goal with |- context [(n =? ?k)%nat] => destruct (Nat.eqb_spec n k) end;
  cbn [orb]; try (exfalso; lia); try split; try reflexivity; exfalso; lia.
Qed.

Lemma length_dispatch_witness :
  In (List.length (repeat "0"%char 146)) [202; 146; 194]%nat /\
  compressPermit (repeat "0"%char 146) = Err AlreadyCompressed.
Proof.
  assert (H : In (List.length (repeat "0"%char 146)) [202; 146; 194]%nat)
    by (simpl; tauto).
  split; [exact H|].
  exact (proj1 (proj2 (length_dispatch (repeat "0"%char 146) 0 0 0)) H).
Defined.

(** C6 (code bug): for every EIP-2612 payload the abi coder encodes,
    compressPermit of the encoding throws at [args.value.toString(16)]
    (ethers 5.7.1 decodes the uint256 value as a BigNumber), so it never
    returns value || deadline' || r || vs. The decompression half holds: on
    any 202-long input of that shape decompressPermit encodes v as
    (vs >> 255) + 27, s as vs masked with (1 << 255) - 1, and deadline as
    MaxUint256 when deadline' = 0 and deadline' - 1 otherwise. *)
Theorem eip2612_compress_throws : forall e full,
  encodePermit (Eip2612 e) = Ok full ->
  compressPermit full = Err UnexpectedArgument /\
  (forall a d r vs token owner spender,
     0 <= a < 2 ^ 256 -> 0 <= d < 2 ^ 32 -> 0 <= r < 2 ^ 256 -> 0 <= vs < 2 ^ 256 ->
     decompressPermit (lit "0x" ++ hex_fixed 64 a ++ hex_fixed 8 d ++ hex_fixed 64 r ++
                       hex_fixed 64 vs) token owner spender =
     abi_encode eip2612_types
       [AAddress owner; AAddress spender; AUint a;
        AUint (if d =? 0 then MaxUint256 else d - 1);
        AUint (Z.shiftr vs 255 + 27);
        ABytes32 (bytes32_hex r);
        ABytes32 (bytes32_hex (Z.land vs (Z.shiftl 1 255 - 1)))]).
Proof.
  intros e full He. split; [exact (compress_eip2612_throws _ _ _ _ _ _ _ _ He)|].
  intros a d r vs token owner spender Ha Hd Hr Hvs.
  replace (Z.shiftl 1 255 - 1) with vs_mask by reflexivity.
  exact (decompress_202 a d r vs token owner spender Ha Hd Hr Hvs).
Qed.
Lemma eip2612_compress_throws_witness :
  exists full, encodePermit (Eip2612 e2612_ex) = Ok full /\
    compressPermit full = Err UnexpectedArgument.
Proof.
  destruct (encode_ok (Eip2612 e2612_ex) fits_e2612_ex) as [full He].
  exists full. split; [exact He|].
  exact (proj1 (eip2612_compress_throws e2612_ex full He)).
Defined.

(** C10: on 202-long (EIP-2612) and 146-long (DAI) inputs the result of
    decompressPermit does not depend on the token argument. *)
Theorem decompress_token_independent : forall permit t1 t2 owner spender,
  (List.length permit = 202%nat \/ List.length permit = 146%nat) ->
  decompressPermit permit t1 owner spender = decompressPermit permit t2 owner spender.
Proof.
  intros permit t1 t2 owner spender [H|H]; unfold decompressPermit; rewrite H; reflexivity.
Qed.

Lemma decompress_token_independent_witness :
  (List.length dai_compressed_ex = 202%nat \/ List.length dai_compressed_ex = 146%nat) /\
  decompressPermit dai_compressed_ex 0 17 99 = decompressPermit dai_compressed_ex 5 17 99.
Proof.
  assert (H : List.length dai_compressed_ex = 202%nat \/ List.length dai_compressed_ex = 146%nat)
    by (right; vm_compute; reflexivity).
  split; [exact H|].
  exact (decompress_token_independent dai_compressed_ex 0 5 17 99 H).
Defined.

(** C2 (code bug): in both versions of the hook, needsDeposit is true
    exactly when the deposit balance read from the contract is missing or
    zero (useContractData turns both into null) or below
    parseUnits(cost, 18). The threshold is the bare cost: no
    rate-times-buffer term is added, although SubscriptionModal tells the
    user that the deposit covers "the subscription cost plus a safety
    buffer". *)
Theorem needs_deposit_bare_cost : forall papayaData allowanceData tokenData cost18 cost6,
  V1.needsDeposit (V1.useSubscriptionInfo papayaData allowanceData tokenData cost18 cost6) =
  match papayaData with Some b => (b =? 0) || (b <? cost18) | None => true end /\
  V2.needsDeposit (V2.useSubscriptionInfo papayaData allowanceData tokenData cost18 cost6) =
  match papayaData with Some b => (b =? 0) || (b <? cost18) | None => true end.
Proof.
  intros papayaData allowanceData tokenData cost18 cost6.
  cbn [V1.needsDeposit V1.useSubscriptionInfo V2.needsDeposit V2.useSubscriptionInfo].
  unfold needsDeposit_of, useContractData.
  destruct papayaData as [b|]; [|split; reflexivity].
  destruct (b =? 0); split; reflexivity.
Qed.

(** C2 (counterexample): a cost of 1 token (10^18 in 18 decimals) paid
    monthly has a positive per-second rate, so cost + rate * 172800 exceeds
    the cost; a deposit balance equal to the cost is below that, yet both
    versions report needsDeposit = false and no deposit is asked for. *)
Lemma needs_deposit_no_buffer :
  calculateSubscriptionRate (CostBigInt (10 ^ 18)) Monthly = Ok 385802469135 /\
  10 ^ 18 < 10 ^ 18 + 385802469135 * 172800 /\
  V1.needsDeposit (V1.useSubscriptionInfo (Some (10 ^ 18)) None None (10 ^ 18) (10 ^ 6)) = false /\
  V2.needsDeposit (V2.useSubscriptionInfo (Some (10 ^ 18)) None None (10 ^ 18) (10 ^ 6)) = false.
Proof. vm_compute. repeat split; reflexivity. Qed.

(** C3 (amended): in the first version, canSubscribe holds exactly when no
    deposit is needed, or a deposit is needed and the wallet balance is at
    least the full parseUnits(cost, 6) (not the shortfall depositAmount). In
    the second version, canSubscribe is exactly [not needsDeposit]; the
    wallet check against depositAmount is the separate hasSufficientBalance. *)
Theorem can_subscribe_full_cost : forall papayaData allowanceData tokenData cost18 cost6,
  let i1 := V1.useSubscriptionInfo papayaData allowanceData tokenData cost18 cost6 in
  let i2 := V2.useSubscriptionInfo papayaData allowanceData tokenData cost18 cost6 in
  (V1.canSubscribe i1 = true <->
     V1.needsDeposit i1 = false \/
     (V1.needsDeposit i1 = true /\
      exists t, V1.tokenBalance i1 = Some t /\ cost6 <= t)) /\
  V2.canSubscribe i2 = negb (V2.needsDeposit i2) /\
  (V2.hasSufficientBalance i2 = true <->
     exists t, V2.tokenBalance i2 = Some t /\ V2.depositAmount i2 <= t).
Proof.
  intros papayaData allowanceData tokenData cost18 cost6 i1 i2.
  subst i1 i2.
  cbn [V1.canSubscribe V1.needsDeposit V1.tokenBalance V1.useSubscriptionInfo
       V2.canSubscribe V2.needsDeposit V2.tokenBalance V2.depositAmount
       V2.hasSufficientBalance V2.useSubscriptionInfo].
  rewrite !needsDeposit_present.
  split; [|split; [reflexivity|apply present_ge_spec]].
  rewrite <- present_ge_spec.
  destruct (needsDeposit_of _ cost18), (present_ge _ cost6); cbn; intuition discriminate.
Qed.

(** C3 (counterexample): cost 1 token (10^18 / 10^6), deposit balance half
    the cost, wallet balance 0.6 token. A deposit is needed, the shortfall
    depositAmount is 0.5 token and the wallet covers it, but canSubscribe is
    false in both versions (the first compares the wallet with the full cost). *)
Lemma can_subscribe_shortfall_insufficient :
  let i1 := V1.useSubscriptionInfo (Some (5 * 10 ^ 17)) None (Some 600000) (10 ^ 18) (10 ^ 6) in
  let i2 := V2.useSubscriptionInfo (Some (5 * 10 ^ 17)) None (Some 600000) (10 ^ 18) (10 ^ 6) in
  V1.needsDeposit i1 = true /\ V1.depositAmount i1 = 500000 /\
  V1.tokenBalance i1 = Some 600000 /\ V1.canSubscribe i1 = false /\
  V2.needsDeposit i2 = true /\ V2.hasSufficientBalance i2 = true /\ V2.canSubscribe i2 = false.
Proof. vm_compute. repeat split; reflexivity. Qed.

(** C4 (code bug): in both versions depositAmount is
    parseUnits(cost, 6) - balance / 10^12 (floor division) when the deposit
    balance read is positive, and parseUnits(cost, 6) otherwise. The
    requirement is the bare cost, without the safety buffer the modal
    announces, and there is no clamp at zero: it is negative exactly when
    the positive balance, scaled to token units, exceeds the cost (or when
    the cost itself is negative). *)
Theorem deposit_amount_unclamped : forall papayaData allowanceData tokenData cost18 cost6,
  let i1 := V1.useSubscriptionInfo papayaData allowanceData tokenData cost18 cost6 in
  let i2 := V2.useSubscriptionInfo papayaData allowanceData tokenData cost18 cost6 in
  V2.depositAmount i2 = V1.depositAmount i1 /\
  V1.depositAmount i1 =
    match papayaData with
    | Some b => if 0 <? b then cost6 - b / 10 ^ 12 else cost6
    | None => cost6
    end /\
  (V1.depositAmount i1 < 0 <->
     (exists b, papayaData = Some b /\ 0 < b /\ cost6 < b / 10 ^ 12) \/
     ((forall b, papayaData = Some b -> b <= 0) /\ cost6 < 0)).
Proof.
  intros papayaData allowanceData tokenData cost18 cost6 i1 i2. subst i1 i2.
  cbn [V1.depositAmount V1.useSubscriptionInfo V2.depositAmount V2.useSubscriptionInfo].
  split; [reflexivity|].
  unfold depositAmount_of, useContractData, unit12.
  destruct papayaData as [b|].
  - destruct (Z.eqb_spec b 0) as [->|Hb0].
    + cbn. split; [reflexivity|].
      split; [intros H; right; split; [intros b' E; injection E as <-; lia|exact H]|].
      intros [(b' & E & Hb & _)|(_ & H)]; [injection E as <-; lia|exact H].
    + destruct (Z.ltb_spec 0 b) as [Hb|Hb].
      * rewrite Z.quot_div_nonneg by lia. split; [reflexivity|].
        split; [intros H; left; exists b; repeat split; lia|].
        intros [(b' & E & _ & H)|(H & _)]; [injection E as <-; lia|].
        specialize (H b eq_refl). lia.
      * split; [reflexivity|].
        split; [intros H; right; split; [intros b' E; injection E as <-; lia|exact H]|].
        intros [(b' & E & Hb' & _)|(_ & H)]; [injection E as <-; lia|exact H].
  - split; [reflexivity|].
    split; [intros H; right; split; [intros b' E; discriminate|exact H]|].
    intros [(b' & E & _)|(_ & H)]; [discriminate|exact H].
Qed.

(** C4 (counterexample): cost 1 token, deposit balance 2 tokens: the
    shortfall is -1 token (-10^6), not 0. *)
Lemma deposit_amount_negative :
  V1.depositAmount (V1.useSubscriptionInfo (Some (2 * 10 ^ 18)) None None (10 ^ 18) (10 ^ 6)) = - 10 ^ 6 /\
  V2.depositAmount (V2.useSubscriptionInfo (Some (2 * 10 ^ 18)) None None (10 ^ 18) (10 ^ 6)) = - 10 ^ 6.
Proof. vm_compute. split; reflexivity. Qed.

(** C7: for a non-negative bigint cost, calculateSubscriptionRate is the
    floor of the cost divided by the cycle length in seconds: 86400 daily,
    604800 weekly, 2592000 monthly (30 days), 31536000 yearly (365 days).
    The cost 2592000000000000000 per month, as a string or as a bigint,
    gives 1000000000000. *)
Theorem rate_floor_division : forall cost payCycle, 0 <= cost ->
  calculateSubscriptionRate (CostBigInt cost) payCycle =
    Ok (cost / match payCycle with
               | Daily => 86400 | Weekly => 604800
               | Monthly => 2592000 | Yearly => 31536000
               end) /\
  calculateSubscriptionRate (CostString (lit "2592000000000000000")) Monthly = Ok 1000000000000 /\
  calculateSubscriptionRate (CostBigInt 2592000000000000000) Monthly = Ok 1000000000000.
Proof.
  intros cost payCycle Hc.
  split; [|split; vm_compute; reflexivity].
  unfold calculateSubscriptionRate. cbn [bind].
  rewrite Z.quot_div_nonneg by (try exact Hc; destruct payCycle; cbn; lia).
  destruct payCycle; reflexivity.
Qed.

Lemma rate_floor_division_witness :
  0 <= 100000 /\
  calculateSubscriptionRate (CostBigInt 100000) Daily = Ok (100000 / 86400).
Proof.
  assert (H : 0 <= 100000) by lia.
  split; [exact H|].
  exact (proj1 (rate_floor_division 100000 Daily H)).
Defined.

(** C8: the flags never report a mismatch. For every chain id and token
    symbol, useTokenDetails (on the configured networks) succeeds with
    isUnsupportedNetwork = false and isUnsupportedToken = false, and so does
    what useSubscriptionModal returns, because [??] substitutes the default
    network and token before [!] is applied. On chain 1, which is not
    configured, with token "DAI", which no network lists, the hook silently
    resolves to Polygon (137) and USDT. *)
Theorem unsupported_flags_never_set :
  (forall cid tok, exists st, useTokenDetails networks cid tok = Ok st /\
     isUnsupportedNetwork st = false /\ isUnsupportedToken st = false) /\
  (forall network_chainId tok,
     useSubscriptionModal_flags network_chainId tok = Ok (false, false)) /\
  (find (fun n => chainId n =? 1) networks = None /\
   Forall (fun n => Forall (fun t => toLowerCase (name t) <> lit "dai") (tokens n)) networks /\
   match useTokenDetails networks 1 (lit "DAI") with
   | Ok st => option_map chainId (currentNetwork st) = Some 137 /\
              option_map name (tokenDetails st) = Some (lit "USDT") /\
              isUnsupportedNetwork st = false /\ isUnsupportedToken st = false
   | Err _ => False
   end).
Proof.
  split; [exact useTokenDetails_flags|split].
  - intros network_chainId tok. unfold useSubscriptionModal_flags.
    destruct (useTokenDetails_flags (match network_chainId with Some c => c | None => 137 end) tok)
      as (st & E & H1 & H2).
    rewrite E. cbn [bind]. rewrite H1, H2. reflexivity.
  - split; [reflexivity|split].
    + repeat constructor; discriminate.
    + vm_compute. repeat split; reflexivity.
Qed.

(** C9 (amended): buildBySigTraits packs a 2-bit nonce type at bit 254, a
    40-bit deadline at bit 208, an 80-bit relayer fragment (the relayer
    masked with 0xffffffffffffffffffff, twenty hex digits) at bit 128 and a
    128-bit nonce in the low bits; each field is recovered from the result.
    The orchestrator's call (Selector, deadline 0xffffffffff, zero relayer,
    nonce 0) gives 2^254 + 0xffffffffff * 2^208. *)
Theorem bysig_traits_layout : forall nonceType deadline relayer r nonce,
  0 <= nonceType <= 3 -> 0 <= deadline < 2 ^ 40 -> (List.length relayer <= 42)%nat ->
  BigInt relayer = Ok r -> 0 <= nonce < 2 ^ 128 ->
  (exists t,
     buildBySigTraits nonceType deadline relayer nonce = Ok t /\
     t = nonceType * 2 ^ 254 + deadline * 2 ^ 208 + (r mod 2 ^ 80) * 2 ^ 128 + nonce /\
     0 <= t < 2 ^ 256 /\
     Z.shiftr t 254 = nonceType /\ Z.shiftr t 208 mod 2 ^ 40 = deadline /\
     Z.shiftr t 128 mod 2 ^ 80 = r mod 2 ^ 80 /\ t mod 2 ^ 128 = nonce) /\
  orchestrator_traits = Ok (2 ^ 254 + 1099511627775 * 2 ^ 208).
Proof.
  intros nonceType deadline relayer r nonce Hnt Hdl Hrl Hr Hn.
  split; [|vm_compute; reflexivity].
  exists (nonceType * 2 ^ 254 + deadline * 2 ^ 208 + (r mod 2 ^ 80) * 2 ^ 128 + nonce).
  split; [exact (buildBySigTraits_ok nonceType deadline relayer r nonce Hnt Hdl Hrl Hr Hn)|].
  split; [reflexivity|].
  apply traits_fields; try assumption.
  apply Z.mod_pos_bound. lia.
Qed.

Lemma bysig_traits_layout_witness :
  (0 <= NonceType_Selector <= 3 /\ 0 <= 1099511627775 < 2 ^ 40 /\
   (List.length AddressZero <= 42)%nat /\ BigInt AddressZero = Ok 0 /\ 0 <= 0 < 2 ^ 128) /\
  orchestrator_traits = Ok (2 ^ 254 + 1099511627775 * 2 ^ 208).
Proof.
  assert (H1 : 0 <= NonceType_Selector <= 3) by (unfold NonceType_Selector; lia).
  assert (H2 : 0 <= 1099511627775 < 2 ^ 40) by (vm_compute; split; congruence).
  assert (H3 : (List.length AddressZero <= 42)%nat) by (vm_compute; lia).
  assert (H4 : BigInt AddressZero = Ok 0) by (vm_compute; reflexivity).
  assert (H5 : 0 <= 0 < 2 ^ 128) by (vm_compute; split; congruence).
  split; [exact (conj H1 (conj H2 (conj H3 (conj H4 H5))))|].
  exact (proj2 (bysig_traits_layout NonceType_Selector 1099511627775 AddressZero 0 0
                  H1 H2 H3 H4 H5)).
Defined.

(** C9 (counterexample): the relayer 0x100000000000000000000 (= 2^80, only
    bit 80 set) gives the same traits as the zero relayer, so bit 80 of the
    relayer is not packed: the fragment has 80 bits, not 88. *)
Lemma bysig_relayer_bit80_dropped :
  (List.length relayer_bit80 <= 42)%nat /\
  BigInt relayer_bit80 = Ok (2 ^ 80) /\
  buildBySigTraits NonceType_Selector 1099511627775 relayer_bit80 0 = orchestrator_traits.
Proof. vm_compute. split; [lia|split; reflexivity]. Qed.

(** * Lemmas on getPermit, the assets, the error texts and the modal *)

Lemma jstr_eqb_spec : forall a b, jstr_eqb a b = true <-> a = b.
Proof. intros a b. unfold jstr_eqb. destruct (list_eq_dec ascii_dec a b); split; congruence. Qed.

Lemma jstr_eqb_neq : forall a b, a <> b -> jstr_eqb a b = false.
Proof. intros a b H. apply not_true_iff_false. rewrite jstr_eqb_spec. exact H. Qed.

Lemma abi_encode_prefix : forall tys vals d,
  abi_encode tys vals = Ok d -> exists t, d = lit "0x" ++ t.
Proof.
  intros tys vals d H. unfold abi_encode in H.
  destruct (_ =? _)%nat; [|discriminate].
  destruct (enc_parts _ _) as [[h tl]|]; [|discriminate H].
  injection H as <-. eexists; reflexivity.
Qed.

Lemma cut_encoded : forall sel tys vals d, List.length sel = 8%nat ->
  abi_encode tys vals = Ok d ->
  encodeFunctionData sel tys vals = Ok (lit "0x" ++ sel ++ skipn 2 d) /\
  cutSelector (lit "0x" ++ sel ++ skipn 2 d) = d.
Proof.
  intros sel tys vals d Hs He. split.
  - unfold encodeFunctionData. rewrite He. reflexivity.
  - destruct (abi_encode_prefix _ _ _ He) as [t ->].
    unfold cutSelector.
    replace (List.length (lit "0x") + 8)%nat with (List.length (lit "0x" ++ sel) + 0)%nat
      by (rewrite length_app, Hs; reflexivity).
    change (lit "0x" ++ sel ++ skipn 2 (lit "0x" ++ t)) with ((lit "0x" ++ sel) ++ t).
    rewrite skipn_length_app. reflexivity.
Qed.


(** Reading a compressed slot back: [0] is the sentinel, [d] is [d - 1]. *)
Lemma slot_unslot : forall max d, 2 ^ 32 <= max -> 0 <= d < 2 ^ 32 ->
  fits_slot max (if d =? 0 then max else d - 1) /\
  (if (if d =? 0 then max else d - 1) =? max then 0 else (if d =? 0 then max else d - 1) + 1) = d.
Proof.
  intros max d Hm Hd. unfold fits_slot.
  destruct (Z.eqb_spec d 0) as [->|Hne].
  - rewrite Z.eqb_refl. auto.
  - destruct (Z.eqb_spec (d - 1) max); [lia|]. split; [right|]; lia.
Qed.

(** Splitting [vs] into [v] and [s] and packing them again. *)
Lemma vs_unpack : forall vs, 0 <= vs < 2 ^ 256 ->
  (Z.shiftr vs 255 = 0 \/ Z.shiftr vs 255 = 1) /\
  0 <= Z.land vs vs_mask < 2 ^ 255 /\
  Z.lor (Z.shiftl (Z.shiftr vs 255 + 27 - 27) 255) (Z.land vs vs_mask) = vs.
Proof.
  intros vs Hvs. rewrite vs_mask_ones.
  split; [|split].
  - rewrite Z.shiftr_div_pow2 by lia.
    assert (0 <= vs / 2 ^ 255 < 2) by (split; [apply Z.div_pos|apply Z.div_lt_upper_bound]; lia).
    lia.
  - rewrite Z.land_ones by lia. apply Z.mod_pos_bound. lia.
  - rewrite Z.add_simpl_r. apply Z.bits_inj'. intros n Hn.
    rewrite Z.lor_spec, Z.land_spec, Z.testbit_ones_nonneg by lia.
    destruct (Z.ltb_spec n 255).
    + rewrite Z.shiftl_spec_low by lia. cbn. rewrite andb_true_r. reflexivity.
    + rewrite Z.shiftl_spec_high, Z.shiftr_spec by lia.
      rewrite Z.sub_add. rewrite andb_false_r, orb_false_r. reflexivity.
Qed.

Ltac fits_solve :=
  cbn [fits_compressed e_owner e_spender e_value e_deadline e_v e_r e_s
       d_holder d_spender d_nonce d_expiry d_v d_r d_s
       q_owner q_token q_amount q_expiration q_nonce q_spender q_sigDeadline q_signature];
  unfold is_address in *; repeat split; try lia; try assumption.

Lemma lower_char_idem : forall c, lower_char (lower_char c) = lower_char c.
Proof. intros [[] [] [] [] [] [] [] []]; reflexivity. Qed.

Lemma toLowerCase_idem : forall s, toLowerCase (toLowerCase s) = toLowerCase s.
Proof.
  intros s. unfold toLowerCase. rewrite map_map.
  apply map_ext. apply lower_char_idem.
Qed.

(** A lowercased key names no inherited method but [constructor]: the
    others have a capital letter. *)
Lemma lowered_not_method : forall k,
  toLowerCase k <> lit "constructor" ->
  existsb (jstr_eqb (toLowerCase k)) object_prototype_methods = false.
Proof.
  intros k Hc. apply not_true_iff_false. intros Hex.
  apply existsb_exists in Hex as (m & Hin & Heq). apply jstr_eqb_spec in Heq.
  pose proof (toLowerCase_idem k) as Hid. rewrite Heq in Hid.
  cbn [object_prototype_methods map In] in Hin.
  repeat destruct Hin as [<-|Hin]; try contradiction; vm_compute in Hid; discriminate.
Qed.

Lemma useAssets_chain_arg : forall cid tok,
  fst (useAssets_effect_args cid tok) = JsString (if cid =? 56 then BnbIcon else PolygonIcon).
Proof.
  intros cid tok. unfold useAssets_effect_args, nativeTokenIdMap.
  destruct (Z.eqb_spec cid 137) as [->|H1]; [reflexivity|].
  destruct (Z.eqb_spec cid 56) as [->|]; reflexivity.
Qed.

Lemma useAssets_token_arg : forall cid tok,
  toLowerCase tok <> lit "constructor" -> toLowerCase tok <> lit "__proto__" ->
  snd (useAssets_effect_args cid tok) =
  JsString (if jstr_eqb (toLowerCase tok) (lit "usdc") then UsdcIcon else UsdtIcon).
Proof.
  intros cid tok Hc Hp. unfold useAssets_effect_args, getAssets. cbn [snd].
  rewrite toLowerCase_idem.
  unfold record_get. cbn [find tokenIcons fst].
  destruct (jstr_eqb (lit "usdt") (toLowerCase tok)) eqn:E1.
  - apply jstr_eqb_spec in E1. rewrite <- E1. reflexivity.
  - destruct (jstr_eqb (lit "usdc") (toLowerCase tok)) eqn:E2.
    + apply jstr_eqb_spec in E2. rewrite <- E2. reflexivity.
    + rewrite (jstr_eqb_neq _ _ Hp), lowered_not_method by exact Hc.
      rewrite (jstr_eqb_neq (toLowerCase tok) (lit "usdc")).
      * reflexivity.
      * intros H. rewrite H in E2. discriminate.
Qed.

Lemma useAssets_token_special : forall cid tok k,
  toLowerCase tok = lit k -> (k = "constructor" \/ k = "__proto__")%string ->
  snd (useAssets_effect_args cid tok) =
  if (k =? "constructor")%string then JsFunction (lit "constructor") else JsObject.
Proof.
  intros cid tok k H [->| ->]; unfold useAssets_effect_args, getAssets; cbn [snd];
    rewrite toLowerCase_idem, H; reflexivity.
Qed.

Lemma useAssets_token_set : forall prev cid tok,
  exists t, react_set prev (snd (useAssets_effect_args cid tok)) = Ok t.
Proof.
  intros prev cid tok.
  destruct (jstr_eqb (toLowerCase tok) (lit "constructor")) eqn:Ec;
    [apply jstr_eqb_spec in Ec; rewrite (useAssets_token_special cid tok _ Ec (or_introl eq_refl));
     eexists; reflexivity|].
  destruct (jstr_eqb (toLowerCase tok) (lit "__proto__")) eqn:Ep;
    [apply jstr_eqb_spec in Ep; rewrite (useAssets_token_special cid tok _ Ep (or_intror eq_refl));
     eexists; reflexivity|].
  rewrite useAssets_token_arg.
  - eexists; reflexivity.
  - intros H. rewrite H in Ec. discriminate.
  - intros H. rewrite H in Ep. discriminate.
Qed.

Lemma drop_spaces_all : forall s, forallb is_js_space s = true -> drop_spaces s = [].
Proof.
  induction s as [|c s IH]; cbn; [reflexivity|].
  intros H. apply andb_true_iff in H as [-> H]. exact (IH H).
Qed.

(** When a deposit is needed, [depositAmount] (6 decimals) tops a
    nonnegative Papaya balance (18 decimals) up to the cost. *)
Lemma deposit_covers : forall papayaData cost18 cost6,
  (forall b, papayaData = Some b -> 0 <= b) -> 0 < cost18 <= cost6 * unit12 ->
  needsDeposit_of (useContractData papayaData) cost18 = true ->
  let amount := depositAmount_of (useContractData papayaData) cost6 in
  0 < amount /\
  cost18 <= match useContractData papayaData with Some b => b | None => 0 end + amount * unit12.
Proof.
  intros pd c18 c6 Hnn Hc Hnd amount. unfold amount.
  assert (Hu : unit12 = 1000000000000) by reflexivity.
  destruct pd as [b|]; cbn [useContractData] in *.
  2: { cbn [depositAmount_of]. nia. }
  specialize (Hnn b eq_refl).
  destruct (Z.eqb_spec b 0) as [->|Hb]; cbn [depositAmount_of needsDeposit_of] in *; [nia|].
  apply Z.ltb_lt in Hnd.
  destruct (Z.ltb_spec 0 b); [|lia].
  rewrite Z.quot_div_nonneg by lia.
  pose proof (Z.div_mod b unit12 ltac:(lia)).
  pose proof (Z.mod_pos_bound b unit12 ltac:(lia)).
  assert (b / unit12 < c6) by (apply Z.div_lt_upper_bound; lia).
  nia.
Qed.

(** * Further properties of the code *)

(** X1: cutSelector undoes the selector [encodeFunctionData] puts in front
    of an ABI encoding: for an 8-digit selector, cutting the encoded call
    gives back the bare encoding. *)
Theorem cutSelector_encodeFunctionData : forall selector tys vals data,
  List.length selector = 8%nat -> abi_encode tys vals = Ok data ->
  (let* call := encodeFunctionData selector tys vals in Ok (cutSelector call)) = Ok data.
Proof.
  intros selector tys vals data Hl He.
  destruct (cut_encoded selector tys vals data Hl He) as [H1 H2].
  rewrite H1. cbn [bind]. rewrite H2. reflexivity.
Qed.

Lemma cutSelector_encodeFunctionData_witness :
  List.length (lit "d505accf") = 8%nat /\
  abi_encode [TUint 256] [AUint 5] = Ok (lit "0x" ++ hex_fixed 64 5) /\
  (let* call := encodeFunctionData (lit "d505accf") [TUint 256] [AUint 5] in
   Ok (cutSelector call)) = Ok (lit "0x" ++ hex_fixed 64 5).
Proof.
  assert (H1 : List.length (lit "d505accf") = 8%nat) by reflexivity.
  assert (H2 : abi_encode [TUint 256] [AUint 5] = Ok (lit "0x" ++ hex_fixed 64 5))
    by (vm_compute; reflexivity).
  exact (conj H1 (conj H2 (cutSelector_encodeFunctionData _ _ _ _ H1 H2))).
Defined.

(** X2: getPermit never returns a permit: whenever the permit call
    encodes, getPermit throws UNEXPECTED_ARGUMENT in both modes, with or
    without [compact], in the USDT branch and in the EIP-2612 branch; the
    error comes from compressPermit's [toString(16)] on the BigNumber that
    ethers 5.7.1 decodes. *)
Theorem getPermit_throws : forall selector tokenType owner spender amount deadline nonce v r s
    compact call,
  List.length selector = 8%nat ->
  permitCall_of selector tokenType owner spender amount deadline nonce v r s = Ok call ->
  getPermit_of selector tokenType owner spender amount deadline nonce v r s compact =
  Err UnexpectedArgument.
Proof.
  intros selector tokenType owner spender amount deadline nonce v r s compact call Hl Hc.
  unfold getPermit_of. rewrite Hc. cbn [bind]. unfold getPermit_tail.
  unfold permitCall_of, encodeFunctionData in Hc. destruct (jstr_eqb _ _).
  - destruct (abi_encode dai_types _) as [d|e] eqn:Hd; [|discriminate].
    cbn [bind] in Hc. apply ok_inj in Hc. subst call.
    rewrite (proj2 (cut_encoded _ _ _ d Hl Hd)), (compress_dai_throws _ _ _ _ _ _ _ _ _ Hd).
    destruct compact; reflexivity.
  - destruct (abi_encode eip2612_types _) as [d|e] eqn:Hd; [|discriminate].
    cbn [bind] in Hc. apply ok_inj in Hc. subst call.
    rewrite (proj2 (cut_encoded _ _ _ d Hl Hd)), (compress_eip2612_throws _ _ _ _ _ _ _ _ Hd).
    destruct compact; reflexivity.
Qed.
Lemma getPermit_throws_witness :
  List.length (lit "d505accf") = 8%nat /\
  (exists call, permitCall_of (lit "d505accf") (lit "usdc") 17 99 1000000 1700000000 0 28
                  (2 ^ 255 + 12345) (2 ^ 254 + 777) = Ok call) /\
  getPermit_of (lit "d505accf") (lit "usdc") 17 99 1000000 1700000000 0 28
    (2 ^ 255 + 12345) (2 ^ 254 + 777) false = Err UnexpectedArgument.
Proof.
  assert (H1 : List.length (lit "d505accf") = 8%nat) by reflexivity.
  destruct (permitCall_of (lit "d505accf") (lit "usdc") 17 99 1000000 1700000000 0 28
              (2 ^ 255 + 12345) (2 ^ 254 + 777)) as [call|e] eqn:Hc;
    [|vm_compute in Hc; discriminate].
  split; [exact H1|]. split; [exists call; reflexivity|].
  exact (getPermit_throws _ _ _ _ _ _ _ _ _ _ false call H1 Hc).
Defined.
(** X3: compressPermit never returns a compressed permit: it throws on
    every input, whatever its length and content. *)
Theorem compressPermit_never_ok : forall permit, exists e, compressPermit permit = Err e.
Proof.
  intros permit. unfold compressPermit.
  repeat match goal with
  | |- exists e, Err ?x = Err e => exists x; reflexivity
  | |- exists e, bind (BigNumber_toString (Some 16) _) _ = Err e =>
      exists UnexpectedArgument; reflexivity
  | |- exists e, bind (abi_decode ?t ?p) _ = Err e => destruct (abi_decode t p); cbn [bind]
  | |- context [match ?x with _ => _ end] => destruct x
  end.
Qed.

(** X4: decompressPermit turns every compressed permit written in
    lowercase hex, in each of the three layouts, into a full call of the
    matching uncompressed length (450 from 202, 514 from 146, 706 from
    194), for any owner, spender and token addresses; compressPermit
    throws on that call. *)
Theorem decompress_canonical_length : forall c token owner spender,
  canonical_compressed c -> is_address token -> is_address owner -> is_address spender ->
  exists full, decompressPermit c token owner spender = Ok full /\
    List.length full =
      (if (List.length c =? 202)%nat then 450 else if (List.length c =? 146)%nat then 514 else 706)%nat /\
    compressPermit full = Err UnexpectedArgument.
Proof.
  intros c token owner spender Hc Ht Ho Hs.
  destruct Hc as [(a & d & r & vs & Ha & Hd & Hr & Hvs & ->)
                 |[(n & d & r & vs & Hn & Hd & Hr & Hvs & ->)
                  |(a & e & n & sd & g & Ha & He & Hn & Hsd & Hg & ->)]].
  - rewrite decompress_202 by assumption.
    destruct (abi_encode eip2612_types _) as [full|err] eqn:HE.
    + exists full. split; [reflexivity|]. split.
      * rewrite (abi_encode_static_length _ _ _ valid_eip2612 HE). len_solve.
      * exact (compress_eip2612_throws _ _ _ _ _ _ _ _ HE).
    + destruct (vs_unpack vs Hvs) as (Hb & Hlo & Hpack).
      destruct (slot_unslot MaxUint256 d ltac:(unfold MaxUint256; lia) Hd) as [Hfs Hback].
      set (p := {| e_owner := owner; e_spender := spender; e_value := a;
                   e_deadline := if d =? 0 then MaxUint256 else d - 1;
                   e_v := Z.shiftr vs 255 + 27; e_r := r; e_s := Z.land vs vs_mask |}).
      assert (Hf : fits_compressed (Eip2612 p)) by (unfold p; fits_solve).
      destruct (encode_ok _ Hf) as [full Hfull]. unfold encodePermit, p in Hfull.
      cbn [e_owner e_spender e_value e_deadline e_v e_r e_s] in Hfull. congruence.
  - rewrite decompress_146 by assumption.
    destruct (abi_encode dai_types _) as [full|err] eqn:HE.
    + exists full. split; [reflexivity|]. split.
      * rewrite (abi_encode_static_length _ _ _ valid_dai HE). len_solve.
      * exact (compress_dai_throws _ _ _ _ _ _ _ _ _ HE).
    + destruct (vs_unpack vs Hvs) as (Hb & Hlo & Hpack).
      destruct (slot_unslot MaxUint256 d ltac:(unfold MaxUint256; lia) Hd) as [Hfs Hback].
      set (p := {| d_holder := owner; d_spender := spender; d_nonce := n;
                   d_expiry := if d =? 0 then MaxUint256 else d - 1; d_allowed := true;
                   d_v := Z.shiftr vs 255 + 27; d_r := r; d_s := Z.land vs vs_mask |}).
      assert (Hf : fits_compressed (Dai p)) by (unfold p; fits_solve).
      destruct (encode_ok _ Hf) as [full Hfull]. unfold encodePermit, p in Hfull.
      cbn [d_holder d_spender d_nonce d_expiry d_allowed d_v d_r d_s] in Hfull. congruence.
  - rewrite (hex_fixed_add 64 64) by lia.
    rewrite decompress_194 by assumption.
    assert (Hpm : 2 ^ 32 <= permit2_max) by (rewrite permit2_max_eq; lia).
    destruct (slot_unslot permit2_max e Hpm He) as [Hfe Hbe].
    destruct (slot_unslot permit2_max sd Hpm Hsd) as [Hfd Hbd].
    set (p := {| q_owner := owner; q_token := token; q_amount := a;
                 q_expiration := if e =? 0 then permit2_max else e - 1; q_nonce := n;
                 q_spender := spender;
                 q_sigDeadline := if sd =? 0 then permit2_max else sd - 1;
                 q_signature := g |}).
    assert (Hf : fits_compressed (Permit2 p)) by (unfold p; fits_solve).
    destruct (compress_permit2 p Hf) as (full & HE & HC).
    pose proof (encode_permit2 p Hf) as HE2. rewrite HE in HE2. apply ok_inj in HE2.
    rewrite <- (hex_fixed_add 64 64) by lia.
    change (abi_encode permit2_types _) with (encodePermit (Permit2 p)).
    exists full. split; [exact HE|]. split; [|exact HC].
    rewrite HE2, !length_app, words_length, !hex_fixed_length. reflexivity.
Qed.
Lemma decompress_canonical_length_witness :
  canonical_compressed
    (lit "0x" ++ hex_fixed 64 1000 ++ hex_fixed 8 0 ++ hex_fixed 64 7 ++ hex_fixed 64 (2 ^ 255 + 3)) /\
  is_address 0 /\ is_address 17 /\ is_address 99 /\
  exists full, decompressPermit
                 (lit "0x" ++ hex_fixed 64 1000 ++ hex_fixed 8 0 ++ hex_fixed 64 7 ++
                  hex_fixed 64 (2 ^ 255 + 3)) 0 17 99 = Ok full /\
    List.length full = 450%nat /\ compressPermit full = Err UnexpectedArgument.
Proof.
  assert (H1 : canonical_compressed
    (lit "0x" ++ hex_fixed 64 1000 ++ hex_fixed 8 0 ++ hex_fixed 64 7 ++ hex_fixed 64 (2 ^ 255 + 3))).
  { left. exists 1000, 0, 7, (2 ^ 255 + 3). repeat split; try lia; reflexivity. }
  assert (H2 : is_address 0) by (unfold is_address; lia).
  assert (H3 : is_address 17) by (unfold is_address; lia).
  assert (H4 : is_address 99) by (unfold is_address; lia).
  split; [exact H1|]. split; [exact H2|]. split; [exact H3|]. split; [exact H4|].
  exact (decompress_canonical_length _ _ _ _ H1 H2 H3 H4).
Defined.
(** X5: getPapayaAddress returns null exactly for the chains other than
    137 and 56; on those two it returns the Papaya address of the chain's
    first token, which is the one useTokenDetails resolves for "USDC". *)
Theorem getPapayaAddress_configured : forall cid,
  (getPapayaAddress cid = None <-> cid <> 137 /\ cid <> 56) /\
  (cid = 137 \/ cid = 56 ->
   exists st, useTokenDetails networks cid (lit "USDC") = Ok st /\
              option_map papayaAddress (tokenDetails st) = getPapayaAddress cid).
Proof.
  intros cid.
  destruct (Z.eqb_spec cid 137) as [->|H1].
  { split; [split; [discriminate|lia]|]. intros _. eexists; split; reflexivity. }
  destruct (Z.eqb_spec cid 56) as [->|H2].
  { split; [split; [discriminate|lia]|]. intros _. eexists; split; reflexivity. }
  assert (Hn : getPapayaAddress cid = None).
  { unfold getPapayaAddress. cbn [find networks chainId].
    rewrite (proj2 (Z.eqb_neq 137 cid)) by congruence.
    rewrite (proj2 (Z.eqb_neq 56 cid)) by congruence. reflexivity. }
  split; [tauto|]. intros [|]; contradiction.
Qed.

Lemma getPapayaAddress_configured_witness :
  getPapayaAddress 1 = None /\
  exists st, useTokenDetails networks 56 (lit "USDC") = Ok st /\
             option_map papayaAddress (tokenDetails st) = getPapayaAddress 56.
Proof.
  split.
  - apply (proj2 (proj1 (getPapayaAddress_configured 1))). lia.
  - apply (proj2 (getPapayaAddress_configured 56)). right. reflexivity.
Defined.

(** X6: the chain icon state of useAssets after its effect is the BNB
    icon on chain 56 and the Polygon icon on every other chain, whatever
    the state before and the token name. *)
Theorem useAssets_chain_icon : forall prev cid tok,
  exists st, useAssets prev cid tok = Ok st /\
    fst st = JsString (if cid =? 56 then BnbIcon else PolygonIcon).
Proof.
  intros prev cid tok. unfold useAssets. cbv zeta. rewrite useAssets_chain_arg.
  cbn [react_set bind]. destruct (useAssets_token_set (snd prev) cid tok) as [t Ht].
  rewrite Ht. cbn [bind]. eexists; split; reflexivity.
Qed.

(** X7: after its effect, useAssets holds the USDC icon as the token icon
    when the token name is "usdc" in any case, and the USDT icon for every
    other name, unless the name lowercases to "constructor" or
    "__proto__"; the chain icon is as in X6. *)
Theorem useAssets_token_icon : forall prev cid tok,
  toLowerCase tok <> lit "constructor" -> toLowerCase tok <> lit "__proto__" ->
  useAssets prev cid tok =
  Ok (JsString (if cid =? 56 then BnbIcon else PolygonIcon),
      JsString (if jstr_eqb (toLowerCase tok) (lit "usdc") then UsdcIcon else UsdtIcon)).
Proof.
  intros prev cid tok Hc Hp. unfold useAssets. cbv zeta.
  rewrite useAssets_chain_arg, useAssets_token_arg by assumption. reflexivity.
Qed.

Lemma useAssets_token_icon_witness :
  toLowerCase (lit "DAI") <> lit "constructor" /\ toLowerCase (lit "DAI") <> lit "__proto__" /\
  useAssets (JsString [], JsString []) 56 (lit "DAI") = Ok (JsString BnbIcon, JsString UsdtIcon).
Proof.
  assert (H1 : toLowerCase (lit "DAI") <> lit "constructor") by (vm_compute; discriminate).
  assert (H2 : toLowerCase (lit "DAI") <> lit "__proto__") by (vm_compute; discriminate).
  split; [exact H1|]. split; [exact H2|].
  exact (useAssets_token_icon (JsString [], JsString []) 56 (lit "DAI") H1 H2).
Defined.

(** X8: A token name that lowercases to "constructor" makes getAssets
    return the inherited [Object] function; React calls it as an updater
    on the previous token icon, so the token icon state becomes
    [Object(prev)], a String wrapper object of the previous icon, not an
    icon path. *)
Theorem useAssets_constructor_icon : forall c s cid tok,
  toLowerCase tok = lit "constructor" ->
  useAssets (c, JsString s) cid tok =
  Ok (JsString (if cid =? 56 then BnbIcon else PolygonIcon), JsWrapper (JsString s)).
Proof.
  intros c s cid tok H. unfold useAssets. cbv zeta.
  rewrite useAssets_chain_arg, (useAssets_token_special cid tok _ H (or_introl eq_refl)).
  reflexivity.
Qed.

Lemma useAssets_constructor_icon_witness :
  toLowerCase (lit "Constructor") = lit "constructor" /\
  useAssets (JsString [], JsString []) 137 (lit "Constructor") =
  Ok (JsString PolygonIcon, JsWrapper (JsString [])).
Proof.
  assert (H : toLowerCase (lit "Constructor") = lit "constructor") by reflexivity.
  exact (conj H (useAssets_constructor_icon (JsString []) [] 137 _ H)).
Defined.
(** X9: useTokenDetails always resolves a network: the connected one on
    chains 137 and 56, and Polygon (137) on every other chain. *)
Theorem useTokenDetails_network : forall cid tok,
  exists st, useTokenDetails networks cid tok = Ok st /\
  option_map chainId (currentNetwork st) = Some (if (cid =? 137) || (cid =? 56) then cid else 137).
Proof.
  intros cid tok.
  destruct (Z.eqb_spec cid 137) as [->|H1]; [eexists; split; reflexivity|].
  destruct (Z.eqb_spec cid 56) as [->|H2]; [eexists; split; reflexivity|].
  unfold useTokenDetails. cbn [find networks chainId].
  rewrite (proj2 (Z.eqb_neq 137 cid)), (proj2 (Z.eqb_neq 56 cid)) by congruence.
  eexists; split; reflexivity.
Qed.

(** X10: For a token name other than USDC and USDT (in any case),
    useTokenDetails resolves Polygon's USDT entry, with Polygon's token and
    Papaya addresses, on every chain, and does not flag the token as
    unsupported. *)
Theorem useTokenDetails_unknown_token : forall cid tok,
  toLowerCase tok <> lit "usdc" -> toLowerCase tok <> lit "usdt" ->
  exists st, useTokenDetails networks cid tok = Ok st /\
  tokenDetails st = Some polygon_usdt /\ isUnsupportedToken st = false.
Proof.
  intros cid tok Hc Ht.
  pose proof (jstr_eqb_neq _ _ (not_eq_sym Hc)) as E1.
  pose proof (jstr_eqb_neq _ _ (not_eq_sym Ht)) as E2.
  change (lit "usdc") with (toLowerCase (lit "USDC")) in E1.
  change (lit "usdt") with (toLowerCase (lit "USDT")) in E2.
  unfold useTokenDetails.
  destruct (Z.eqb_spec cid 137) as [->|H1].
  { cbn [find networks chainId tokens name Z.eqb Pos.eqb js_coalesce]. rewrite E1, E2. cbn.
    eexists; repeat split; reflexivity. }
  destruct (Z.eqb_spec cid 56) as [->|H2].
  { cbn [find networks chainId tokens name Z.eqb Pos.eqb js_coalesce]. rewrite E1, E2. cbn.
    eexists; repeat split; reflexivity. }
  cbn [find networks chainId tokens name].
  rewrite (proj2 (Z.eqb_neq 137 cid)), (proj2 (Z.eqb_neq 56 cid)) by congruence.
  cbn [js_coalesce tokens find name Z.eqb Pos.eqb]. rewrite E1, E2. cbn.
  eexists; repeat split; reflexivity.
Qed.

Lemma useTokenDetails_unknown_token_witness :
  toLowerCase (lit "DAI") <> lit "usdc" /\ toLowerCase (lit "DAI") <> lit "usdt" /\
  exists st, useTokenDetails networks 56 (lit "DAI") = Ok st /\
  tokenDetails st = Some polygon_usdt /\ isUnsupportedToken st = false.
Proof.
  assert (H1 : toLowerCase (lit "DAI") <> lit "usdc") by (vm_compute; discriminate).
  assert (H2 : toLowerCase (lit "DAI") <> lit "usdt") by (vm_compute; discriminate).
  split; [exact H1|]. split; [exact H2|].
  exact (useTokenDetails_unknown_token 56 (lit "DAI") H1 H2).
Defined.

(** X11: getReadableErrorMessage falls back to "An error occurred during
    the transaction. ..." on an error object exactly when its message
    contains none of the sixteen patterns (an absent message contains
    none). *)
Theorem readable_fallback_iff : forall message,
  getReadableErrorMessage (ErrObject message) = fallback_error_message <->
  (forall pt, In pt error_messages -> message_includes message (fst pt) = false).
Proof.
  intros message. unfold getReadableErrorMessage.
  destruct (find _ error_messages) as [[p t]|] eqn:E.
  - apply find_some in E as [Hin Hm]. split; intros H.
    + exfalso. rewrite H in Hin. cbn [error_messages map In] in Hin.
      repeat destruct Hin as [Hin|Hin]; try contradiction;
        injection Hin as _ Ht; vm_compute in Ht; discriminate.
    + rewrite (H _ Hin) in Hm. discriminate.
  - split; [intros _|reflexivity]. intros pt Hin. exact (find_none _ _ E pt Hin).
Qed.

(** X12: The text the Subscribe button reports on a failed receipt is
    never the user-rejection text: a message containing "User rejected the
    request" is not reported at all. *)
Theorem subscribe_report_not_rejection : forall error text,
  subscribe_error_report error = Some text ->
  text <> lit "The transaction was rejected by the user.".
Proof.
  intros error text. unfold subscribe_error_report.
  destruct error as [| |message]; cbv beta iota zeta.
  - intros H; injection H as <-. vm_compute. discriminate.
  - intros H; injection H as <-. vm_compute. discriminate.
  - destruct (message_includes message (lit "User rejected the request")) eqn:Hr;
      [discriminate|].
    intros H. cbv beta iota delta [negb] in H.
    assert (text = getReadableErrorMessage (ErrObject message)) as -> by congruence.
    unfold getReadableErrorMessage.
    cbv [lit list_ascii_of_string] in Hr.
    destruct (find (fun pt => message_includes message (fst pt)) error_messages)
      as [[p t]|] eqn:E; [|vm_compute; discriminate].
    apply find_some in E as [Hin Hm]. cbn [fst] in Hm.
    cbn [error_messages map In] in Hin.
    destruct Hin as [Hin|Hin].
    { injection Hin as <- _. cbn [fst] in Hm. rewrite Hm in Hr. discriminate. }
    repeat destruct Hin as [Hin|Hin]; try contradiction;
      injection Hin as _ <-; vm_compute; discriminate.
Qed.

Lemma subscribe_report_not_rejection_witness :
  subscribe_error_report (ErrObject (Some (lit "insufficient funds")))
    = Some (lit "The account has insufficient funds to complete this transaction.") /\
  lit "The account has insufficient funds to complete this transaction."
    <> lit "The transaction was rejected by the user.".
Proof.
  assert (H : subscribe_error_report (ErrObject (Some (lit "insufficient funds")))
    = Some (lit "The account has insufficient funds to complete this transaction."))
    by (vm_compute; reflexivity).
  exact (conj H (subscribe_report_not_rejection _ _ H)).
Defined.

(** X13: For a bigint cost, calculateSubscriptionRate is monotone in the
    cost for every pay cycle. *)
Theorem rate_monotone : forall payCycle c1 c2, c1 <= c2 ->
  exists r1 r2, calculateSubscriptionRate (CostBigInt c1) payCycle = Ok r1 /\
                calculateSubscriptionRate (CostBigInt c2) payCycle = Ok r2 /\ r1 <= r2.
Proof.
  intros payCycle c1 c2 H. do 2 eexists. split; [reflexivity|]. split; [reflexivity|].
  apply Z.quot_le_mono; [destruct payCycle; cbn; lia|exact H].
Qed.

Lemma rate_monotone_witness :
  86400 <= 864000 /\
  exists r1 r2, calculateSubscriptionRate (CostBigInt 86400) Daily = Ok r1 /\
                calculateSubscriptionRate (CostBigInt 864000) Daily = Ok r2 /\ r1 <= r2.
Proof.
  split; [lia|]. apply (rate_monotone Daily 86400 864000). lia.
Defined.

(** X14: For a non-negative bigint cost, the per-second rate of a longer
    pay cycle is never larger: yearly <= monthly <= weekly <= daily. *)
Theorem rate_cycles : forall cost, 0 <= cost ->
  exists daily weekly monthly yearly,
    calculateSubscriptionRate (CostBigInt cost) Daily = Ok daily /\
    calculateSubscriptionRate (CostBigInt cost) Weekly = Ok weekly /\
    calculateSubscriptionRate (CostBigInt cost) Monthly = Ok monthly /\
    calculateSubscriptionRate (CostBigInt cost) Yearly = Ok yearly /\
    yearly <= monthly <= weekly /\ weekly <= daily.
Proof.
  intros cost H. do 4 eexists. do 4 (split; [reflexivity|]).
  cbn [timeDurations].
  repeat split; apply Z.quot_le_compat_l; lia.
Qed.

Lemma rate_cycles_witness :
  0 <= 10 ^ 18 /\
  exists daily weekly monthly yearly,
    calculateSubscriptionRate (CostBigInt (10 ^ 18)) Daily = Ok daily /\
    calculateSubscriptionRate (CostBigInt (10 ^ 18)) Weekly = Ok weekly /\
    calculateSubscriptionRate (CostBigInt (10 ^ 18)) Monthly = Ok monthly /\
    calculateSubscriptionRate (CostBigInt (10 ^ 18)) Yearly = Ok yearly /\
    yearly <= monthly <= weekly /\ weekly <= daily.
Proof.
  split; [lia|]. apply rate_cycles. lia.
Defined.

(** X15: calculateSubscriptionRate is odd in a bigint cost: bigint
    division truncates toward zero, so a negated cost gives the negated
    rate. *)
Theorem rate_negative : forall cost payCycle,
  calculateSubscriptionRate (CostBigInt (- cost)) payCycle =
  (let* r := calculateSubscriptionRate (CostBigInt cost) payCycle in Ok (- r)).
Proof.
  intros cost payCycle. cbn. rewrite Z.quot_opp_l; [reflexivity|destruct payCycle; cbn; lia].
Qed.

(** X16: A cost string that is empty or only whitespace converts to the
    bigint 0, so calculateSubscriptionRate returns 0 for it, not an
    error. *)
Theorem rate_blank : forall s payCycle, forallb is_js_space s = true ->
  calculateSubscriptionRate (CostString s) payCycle = Ok 0.
Proof.
  intros s payCycle H. unfold calculateSubscriptionRate, BigInt, string_to_bigint, js_trim.
  rewrite (drop_spaces_all s H). reflexivity.
Qed.

Lemma rate_blank_witness :
  forallb is_js_space (lit "  ") = true /\
  calculateSubscriptionRate (CostString (lit "  ")) Monthly = Ok 0.
Proof.
  assert (H : forallb is_js_space (lit "  ") = true) by reflexivity.
  exact (conj H (rate_blank _ Monthly H)).
Defined.

(** X17: buildBySigTraits succeeds exactly when nonceType, deadline and
    nonce are integers (BigInt of a fractional number, of NaN or of an
    infinity throws a RangeError) with nonceType <= 3, deadline <=
    0xffffffffff and nonce <= 2^128 - 1, and the relayer has at most 42
    characters and is a valid BigInt string. *)
Theorem traits_ok_iff : forall nonceType deadline relayer nonce,
  (exists traits, buildBySigTraits nonceType deadline relayer nonce = Ok traits) <->
  exists nt dl r n,
    BigInt_of_number nonceType = Ok nt /\ BigInt_of_number deadline = Ok dl /\
    BigInt relayer = Ok r /\ BigInt_of_number nonce = Ok n /\
    nt <= 3 /\ dl <= 1099511627775 /\ (List.length relayer <= 42)%nat /\ n <= 2 ^ 128 - 1.
Proof.
  intros nt dl rel n. split.
  - intros [t Ht]. unfold buildBySigTraits in Ht.
    destruct (js_gt nt 3) eqn:G1; [discriminate|].
    destruct (js_gt dl _) eqn:G2; [discriminate|].
    destruct (Nat.ltb_spec 42 (List.length rel)); [discriminate|].
    destruct (js_gt n _) eqn:G4; [discriminate|].
    destruct (BigInt_of_number nt) as [a|] eqn:B1; [|discriminate]. cbn [bind] in Ht.
    destruct (BigInt_of_number dl) as [b|] eqn:B2; [|discriminate]. cbn [bind] in Ht.
    destruct (BigInt rel) as [r|] eqn:B3; [|discriminate]. cbn [bind] in Ht.
    destruct (BigInt_of_number n) as [c|] eqn:B4; [|discriminate].
    rewrite (js_gt_of_int _ _ _ B1) in G1. rewrite (js_gt_of_int _ _ _ B2) in G2.
    rewrite (js_gt_of_int _ _ _ B4) in G4.
    apply Z.ltb_ge in G1, G2, G4.
    exists a, b, r, c. repeat split; assumption.
  - intros (a & b & r & c & B1 & B2 & B3 & B4 & H1 & H2 & H3 & H4).
    unfold buildBySigTraits.
    rewrite (js_gt_of_int _ _ _ B1), (js_gt_of_int _ _ _ B2), (js_gt_of_int _ _ _ B4).
    rewrite (proj2 (Z.ltb_ge _ _) H1), (proj2 (Z.ltb_ge _ _) H2), (proj2 (Z.ltb_ge _ _) H4).
    rewrite (proj2 (Nat.ltb_ge _ _) H3), B1, B2, B3, B4. eexists; reflexivity.
Qed.
(** X18: The range checks of buildBySigTraits have no lower bound: a
    negative nonce type passes them and, with a non-negative deadline and
    nonce, yields a negative traits value. *)
Theorem traits_negative : forall nonceType deadline relayer nonce traits,
  nonceType < 0 -> 0 <= deadline -> 0 <= nonce ->
  buildBySigTraits nonceType deadline relayer nonce = Ok traits -> traits < 0.
Proof.
  intros nt dl rel n t Hnt Hdl Hn. rewrite buildBySigTraits_int, !Z.gtb_ltb.
  destruct (Z.ltb_spec 3 nt); [discriminate|].
  destruct (Z.ltb_spec 1099511627775 dl); [discriminate|].
  destruct (Nat.ltb_spec 42 (List.length rel)); [discriminate|].
  destruct (Z.ltb_spec (2 ^ 128 - 1) n); [discriminate|].
  unfold BigInt, of_option. destruct (string_to_bigint rel) as [r|]; [|discriminate].
  cbn [bind]. intros Ht. apply ok_inj in Ht. subst t.
  assert (Hm : 0 <= Z.land r (2 ^ 80 - 1) < 2 ^ 80).
  { replace (2 ^ 80 - 1) with (Z.ones 80) by reflexivity.
    rewrite Z.land_ones by lia. apply Z.mod_pos_bound. lia. }
  rewrite !Z.shiftl_mul_pow2 by lia. lia.
Qed.

Lemma traits_negative_witness :
  buildBySigTraits (-1) 0 AddressZero 0 = Ok (- 2 ^ 254) /\ - 2 ^ 254 < 0.
Proof.
  assert (H : buildBySigTraits (-1) 0 AddressZero 0 = Ok (- 2 ^ 254)) by (vm_compute; reflexivity).
  split; [exact H|].
  exact (traits_negative (-1) 0 AddressZero 0 _ ltac:(lia) ltac:(lia) ltac:(lia) H).
Defined.

(** X21: a fractional deadline (such as 1.5) within the range passes the
    checks of buildBySigTraits, which then throws a RangeError at
    [BigInt(deadline)], after [BigInt(nonceType)] succeeded. *)
Theorem traits_fractional_deadline : forall (nonceType : Z) num den relayer (nonce : Z),
  nonceType <= 3 -> num <= 1099511627775 * Zpos den -> (List.length relayer <= 42)%nat ->
  nonce <= 2 ^ 128 - 1 -> num mod Zpos den <> 0 ->
  buildBySigTraits nonceType (JsFinite num den) relayer nonce = Err BigIntRangeError.
Proof.
  intros nt num den rel n H1 H2 H3 H4 H5. unfold buildBySigTraits.
  rewrite !js_gt_int, !Z.gtb_ltb, (proj2 (Z.ltb_ge _ _) H1), (proj2 (Z.ltb_ge _ _) H4).
  cbn [js_gt]. rewrite (proj2 (Z.ltb_ge _ _) H2), (proj2 (Nat.ltb_ge _ _) H3).
  rewrite BigInt_of_int. cbn [bind BigInt_of_number].
  destruct (Z.eqb_spec (num mod Zpos den) 0); [contradiction|reflexivity].
Qed.

Lemma traits_fractional_deadline_witness :
  buildBySigTraits NonceType_Selector (JsFinite 3 2) AddressZero 0 = Err BigIntRangeError.
Proof.
  exact (traits_fractional_deadline NonceType_Selector 3 2 AddressZero 0
           ltac:(unfold NonceType_Selector; lia) ltac:(apply Z.leb_le; reflexivity)
           ltac:(vm_compute; lia) ltac:(apply Z.leb_le; reflexivity)
           ltac:(vm_compute; discriminate)).
Defined.

(** X19: When SubscriptionModal prepares a deposit (version 2 of the
    hook), for a positive cost and a non-negative Papaya balance the
    deposited amount is positive and, scaled to 18 decimals and added to
    the balance, covers the cost. *)
Theorem modal_deposit_covers : forall papayaData allowanceData tokenData cost18 cost6
    papaya toAddress payCycle amount isPermit2,
  (forall b, papayaData = Some b -> 0 <= b) -> 0 < cost18 <= cost6 * unit12 ->
  let info := V2.useSubscriptionInfo papayaData allowanceData tokenData cost18 cost6 in
  modalCall (V2.needsApproval info) (V2.needsDeposit info) (V2.depositAmount info)
    papaya toAddress cost18 payCycle = CallDeposit amount isPermit2 ->
  0 < amount /\
  cost18 <= match V2.papayaBalance info with Some b => b | None => 0 end + amount * unit12.
Proof.
  intros pd ad td c18 c6 pa ta pc amt ip Hnn Hc info. unfold info, modalCall.
  cbn [V2.useSubscriptionInfo V2.needsApproval V2.needsDeposit V2.depositAmount V2.papayaBalance].
  destruct (needsApproval_of _ _); [discriminate|].
  destruct (needsDeposit_of (useContractData pd) c18) eqn:Hnd; [|discriminate].
  intros H; injection H as <- _.
  exact (deposit_covers pd c18 c6 Hnn Hc Hnd).
Qed.

Lemma modal_deposit_covers_witness :
  0 < 500000 /\ 10 ^ 18 <= 5 * 10 ^ 17 + 500000 * unit12.
Proof.
  assert (Hnn : forall b, Some (5 * 10 ^ 17) = Some b -> 0 <= b)
    by (intros b Hb; injection Hb as <-; lia).
  assert (Hc : 0 < 10 ^ 18 <= 10 ^ 6 * unit12) by (unfold unit12; lia).
  exact (modal_deposit_covers (Some (5 * 10 ^ 17)) (Some (10 ^ 6)) None (10 ^ 18) (10 ^ 6)
           (lit "0xD3B79811fFb55708A4fe848D0b131030a347887C") AddressZero Monthly 500000 false
           Hnn Hc ltac:(vm_compute; reflexivity)).
Defined.

(** X20: In version 2 of the hook, a zero allowance reads as missing, so
    SubscriptionModal asks for an approval even when the Papaya balance
    already covers the cost, and the approved amount is then zero or
    negative. *)
Theorem modal_zero_allowance : forall papayaData tokenData cost6 b papaya toAddress payCycle,
  0 < cost6 -> papayaData = Some b -> cost6 * unit12 <= b ->
  let info := V2.useSubscriptionInfo papayaData (Some 0) tokenData (cost6 * unit12) cost6 in
  V2.needsDeposit info = false /\
  exists amount, modalCall (V2.needsApproval info) (V2.needsDeposit info) (V2.depositAmount info)
                   papaya toAddress (cost6 * unit12) payCycle = CallApprove papaya amount /\
                 amount <= 0.
Proof.
  intros pd td c6 b pa ta pc Hc -> Hb info. unfold info, modalCall.
  cbn [V2.useSubscriptionInfo V2.needsApproval V2.needsDeposit V2.depositAmount].
  assert (Hu : unit12 = 10 ^ 12) by reflexivity.
  assert (Hb0 : 0 < b) by nia.
  assert (Hp : useContractData (Some b) = Some b)
    by (cbn; destruct (Z.eqb_spec b 0); [lia|reflexivity]).
  rewrite Hp. cbn [useContractData needsApproval_of needsDeposit_of depositAmount_of Z.eqb].
  destruct (Z.ltb_spec b (c6 * unit12)); [lia|].
  destruct (Z.ltb_spec 0 b); [|lia].
  split; [reflexivity|]. eexists; split; [reflexivity|].
  rewrite Z.quot_div_nonneg by lia.
  assert (c6 <= b / unit12) by (apply Z.div_le_lower_bound; lia).
  lia.
Qed.

Lemma modal_zero_allowance_witness :
  V2.needsDeposit (V2.useSubscriptionInfo (Some (2 * 10 ^ 18)) (Some 0) None
                     (10 ^ 6 * unit12) (10 ^ 6)) = false.
Proof.
  exact (proj1 (modal_zero_allowance (Some (2 * 10 ^ 18)) None (10 ^ 6) (2 * 10 ^ 18)
                  (lit "0xD3B79811fFb55708A4fe848D0b131030a347887C") AddressZero Monthly
                  ltac:(lia) eq_refl ltac:(unfold unit12; lia))).
Defined.
